(** * util/http.go: request helpers of the Tencent-doc SDK

    A shallow embedding of [src/util/http.go] (package [util]): the request
    builder [newRequest], the executor [doRequest] and the five public entry
    points [PostForm], [GetWithCustomHeaders], [PostFormWithHeaders],
    [PostJSONWithAuth] and [HTTPGet].

    The Go file is a thin layer over the standard library.  The parts of the
    standard library it calls are modelled first, each in its own module
    named after the Go package:
    - [json]: the scanner of encoding/json (scanner.go), [checkValid],
      the [Decoder]'s [readValue], [Unmarshal] and [Decode];
    - [url]: [QueryEscape] and the [QueryUnescape] that undoes it,
      [Values.Encode] and the [URL] record;
    - [http]: header canonicalisation, [Header.Set], requests, responses,
      [NewRequestWithContext].
    What the standard library leaves to the outside world (how a URL string
    parses, what the network answers, how a Go value marshals and how a
    JSON value is stored into a Go value) is a parameter of the
    development: see [url.Impl], [http.Net], [json.Marshaler] and
    [json.Unmarshaler]. *)

From Stdlib Require Import ZArith NArith String Ascii List Lia Bool.
From stdpp Require Import base option list gmap strings sorting.

Local Open Scope string_scope.

(** ** Bytes

    A Go [string] is a sequence of bytes; so is a Rocq [string]. *)

Module bytes.

Definition code (c : ascii) : N := N_of_ascii c.

(** [lo <= c && c <= hi] on bytes. *)
Definition between (lo hi c : ascii) : bool :=
  ((code lo <=? code c) && (code c <=? code hi))%N.

Definition isDigit (c : ascii) : bool := between "0" "9" c.
Definition isLower (c : ascii) : bool := between "a" "z" c.
Definition isUpper (c : ascii) : bool := between "A" "Z" c.
Definition isAlnum (c : ascii) : bool := isLower c || isUpper c || isDigit c.

(** [c] is one of the bytes of [set]. *)
Fixpoint oneOf (set : string) (c : ascii) : bool :=
  match set with
  | EmptyString => false
  | String x set' => Ascii.eqb c x || oneOf set' c
  end.

Definition tab : ascii := ascii_of_N 9.
Definition lf : ascii := ascii_of_N 10.
Definition cr : ascii := ascii_of_N 13.
Definition dquote : ascii := ascii_of_N 34.

Fixpoint forallb (p : ascii -> bool) (s : string) : bool :=
  match s with
  | EmptyString => true
  | String c s' => p c && forallb p s'
  end.

Fixpoint existsb (p : ascii -> bool) (s : string) : bool :=
  match s with
  | EmptyString => false
  | String c s' => p c || existsb p s'
  end.

(** [s ++ [c]]. *)
Definition snoc (s : string) (c : ascii) : string := s ++ String c EmptyString.

(** [s] with double quotes for its apostrophes: a way to write JSON texts
    down. *)
Fixpoint quoted (s : string) : string :=
  match s with
  | EmptyString => EmptyString
  | String c s' => String (if Ascii.eqb c "'" then dquote else c) (quoted s')
  end.

End bytes.

(** ** encoding/json *)

Module json.

Import bytes.

(** The name of a scanner state function ([scanner.step] in scanner.go). *)
Inductive stepfn : Type :=
| stateBeginValueOrEmpty | stateBeginValue | stateBeginStringOrEmpty
| stateBeginString | stateEndValue | stateEndTop
| stateInString | stateInStringEsc | stateInStringEscU | stateInStringEscU1
| stateInStringEscU12 | stateInStringEscU123
| stateNeg | state1 | state0 | stateDot | stateDot0 | stateE | stateESign
| stateE0
| stateT | stateTr | stateTru | stateF | stateFa | stateFal | stateFals
| stateN | stateNu | stateNul
| stateError.

(** What a state function returns. *)
Inductive opcode : Type :=
| scanContinue | scanBeginLiteral | scanBeginObject | scanObjectKey
| scanObjectValue | scanEndObject | scanBeginArray | scanArrayValue
| scanEndArray | scanSkipSpace
| scanEnd | scanError.

Inductive pstate : Type :=
| parseObjectKey | parseObjectValue | parseArrayValue.

(** [scanner]: [parseState] is the stack of open objects and arrays, its
    head being the innermost (the last element of the Go slice); [err] is
    the context of the syntax error, once one was found. *)
Record scanner : Type := Scanner {
  step : stepfn;
  endTop : bool;
  parseState : list pstate;
  err : option string
}.

Definition maxNestingDepth : N := 10000.

(** [scanner.reset]. *)
Definition reset : scanner :=
  {| step := stateBeginValue; endTop := false; parseState := []; err := None |}.

Definition setStep (s : scanner) (f : stepfn) : scanner :=
  {| step := f; endTop := endTop s; parseState := parseState s; err := err s |}.

(** [scanner.error]: records the error and parks the scanner in
    [stateError]. *)
Definition error (s : scanner) (context : string) : scanner * opcode :=
  ({| step := stateError; endTop := endTop s; parseState := parseState s;
      err := Some context |}, scanError).

(** [scanner.pushParseState], the new step function already chosen. *)
Definition pushParseState (s : scanner) (f : stepfn) (p : pstate)
    (successState : opcode) : scanner * opcode :=
  let s' := {| step := f; endTop := endTop s; parseState := p :: parseState s;
               err := err s |} in
  if (N.of_nat (length (parseState s')) <=? maxNestingDepth)%N
  then (s', successState)
  else error s' "exceeded max depth".

(** [scanner.popParseState]. *)
Definition popParseState (s : scanner) : scanner :=
  let ps := tail (parseState s) in
  match ps with
  | [] => {| step := stateEndTop; endTop := true; parseState := ps; err := err s |}
  | _ => {| step := stateEndValue; endTop := endTop s; parseState := ps; err := err s |}
  end.

(** Replaces the innermost parse state ([s.parseState[n-1] = p]). *)
Definition setTop (s : scanner) (p : pstate) : scanner :=
  {| step := step s; endTop := endTop s; parseState := p :: tail (parseState s);
     err := err s |}.

Definition isSpace (c : ascii) : bool :=
  Ascii.eqb c " " || Ascii.eqb c tab || Ascii.eqb c cr || Ascii.eqb c lf.

Definition isHex (c : ascii) : bool :=
  isDigit c || between "a" "f" c || between "A" "F" c.

Definition do_stateEndTop (s : scanner) (c : ascii) : scanner * opcode :=
  if isSpace c then (s, scanEnd)
  else (fst (error s "after top-level value"), scanEnd).

Definition do_stateEndValue (s : scanner) (c : ascii) : scanner * opcode :=
  match parseState s with
  | [] =>
      do_stateEndTop
        {| step := stateEndTop; endTop := true; parseState := []; err := err s |} c
  | ps :: _ =>
      if isSpace c then (setStep s stateEndValue, scanSkipSpace)
      else match ps with
      | parseObjectKey =>
          if Ascii.eqb c ":"
          then (setStep (setTop s parseObjectValue) stateBeginValue, scanObjectKey)
          else error s "after object key"
      | parseObjectValue =>
          if Ascii.eqb c ","
          then (setStep (setTop s parseObjectKey) stateBeginString, scanObjectValue)
          else if Ascii.eqb c "}" then (popParseState s, scanEndObject)
          else error s "after object key:value pair"
      | parseArrayValue =>
          if Ascii.eqb c "," then (setStep s stateBeginValue, scanArrayValue)
          else if Ascii.eqb c "]" then (popParseState s, scanEndArray)
          else error s "after array element"
      end
  end.

Definition do_stateBeginValue (s : scanner) (c : ascii) : scanner * opcode :=
  if isSpace c then (s, scanSkipSpace)
  else if Ascii.eqb c "{"
  then pushParseState s stateBeginStringOrEmpty parseObjectKey scanBeginObject
  else if Ascii.eqb c "["
  then pushParseState s stateBeginValueOrEmpty parseArrayValue scanBeginArray
  else if Ascii.eqb c dquote then (setStep s stateInString, scanBeginLiteral)
  else if Ascii.eqb c "-" then (setStep s stateNeg, scanBeginLiteral)
  else if Ascii.eqb c "0" then (setStep s state0, scanBeginLiteral)
  else if Ascii.eqb c "t" then (setStep s stateT, scanBeginLiteral)
  else if Ascii.eqb c "f" then (setStep s stateF, scanBeginLiteral)
  else if Ascii.eqb c "n" then (setStep s stateN, scanBeginLiteral)
  else if between "1" "9" c then (setStep s state1, scanBeginLiteral)
  else error s "looking for beginning of value".

Definition do_stateBeginValueOrEmpty (s : scanner) (c : ascii) : scanner * opcode :=
  if isSpace c then (s, scanSkipSpace)
  else if Ascii.eqb c "]" then do_stateEndValue s c
  else do_stateBeginValue s c.

Definition do_stateBeginString (s : scanner) (c : ascii) : scanner * opcode :=
  if isSpace c then (s, scanSkipSpace)
  else if Ascii.eqb c dquote then (setStep s stateInString, scanBeginLiteral)
  else error s "looking for beginning of object key string".

Definition do_stateBeginStringOrEmpty (s : scanner) (c : ascii) : scanner * opcode :=
  if isSpace c then (s, scanSkipSpace)
  else if Ascii.eqb c "}" then do_stateEndValue (setTop s parseObjectValue) c
  else do_stateBeginString s c.

Definition do_stateInString (s : scanner) (c : ascii) : scanner * opcode :=
  if Ascii.eqb c dquote then (setStep s stateEndValue, scanContinue)
  else if Ascii.eqb c "\" then (setStep s stateInStringEsc, scanContinue)
  else if (code c <? 32)%N then error s "in string literal"
  else (s, scanContinue).

Definition do_stateInStringEsc (s : scanner) (c : ascii) : scanner * opcode :=
  if oneOf "bfnrt\/" c || Ascii.eqb c dquote then (setStep s stateInString, scanContinue)
  else if Ascii.eqb c "u" then (setStep s stateInStringEscU, scanContinue)
  else error s "in string escape code".

(** The four [stateInStringEscU*] functions: one hexadecimal digit, then on
    to [next]. *)
Definition do_hex (s : scanner) (c : ascii) (next : stepfn) : scanner * opcode :=
  if isHex c then (setStep s next, scanContinue)
  else error s "in \u hexadecimal character escape".

Definition do_state0 (s : scanner) (c : ascii) : scanner * opcode :=
  if Ascii.eqb c "." then (setStep s stateDot, scanContinue)
  else if Ascii.eqb c "e" || Ascii.eqb c "E" then (setStep s stateE, scanContinue)
  else do_stateEndValue s c.

Definition do_state1 (s : scanner) (c : ascii) : scanner * opcode :=
  if isDigit c then (setStep s state1, scanContinue)
  else do_state0 s c.

Definition do_stateNeg (s : scanner) (c : ascii) : scanner * opcode :=
  if Ascii.eqb c "0" then (setStep s state0, scanContinue)
  else if between "1" "9" c then (setStep s state1, scanContinue)
  else error s "in numeric literal".

Definition do_stateDot (s : scanner) (c : ascii) : scanner * opcode :=
  if isDigit c then (setStep s stateDot0, scanContinue)
  else error s "after decimal point in numeric literal".

Definition do_stateDot0 (s : scanner) (c : ascii) : scanner * opcode :=
  if isDigit c then (s, scanContinue)
  else if Ascii.eqb c "e" || Ascii.eqb c "E" then (setStep s stateE, scanContinue)
  else do_stateEndValue s c.

Definition do_stateESign (s : scanner) (c : ascii) : scanner * opcode :=
  if isDigit c then (setStep s stateE0, scanContinue)
  else error s "in exponent of numeric literal".

Definition do_stateE (s : scanner) (c : ascii) : scanner * opcode :=
  if Ascii.eqb c "+" || Ascii.eqb c "-" then (setStep s stateESign, scanContinue)
  else do_stateESign s c.

Definition do_stateE0 (s : scanner) (c : ascii) : scanner * opcode :=
  if isDigit c then (s, scanContinue)
  else do_stateEndValue s c.

(** The states inside [true], [false] and [null]: the byte [want], then on
    to [next]. *)
Definition do_literal (s : scanner) (c : ascii) (want : ascii) (next : stepfn)
    (context : string) : scanner * opcode :=
  if Ascii.eqb c want then (setStep s next, scanContinue)
  else error s context.

(** [s.step(s, c)]: one byte through the scanner. *)
Definition stepByte (s : scanner) (c : ascii) : scanner * opcode :=
  match step s with
  | stateBeginValueOrEmpty => do_stateBeginValueOrEmpty s c
  | stateBeginValue => do_stateBeginValue s c
  | stateBeginStringOrEmpty => do_stateBeginStringOrEmpty s c
  | stateBeginString => do_stateBeginString s c
  | stateEndValue => do_stateEndValue s c
  | stateEndTop => do_stateEndTop s c
  | stateInString => do_stateInString s c
  | stateInStringEsc => do_stateInStringEsc s c
  | stateInStringEscU => do_hex s c stateInStringEscU1
  | stateInStringEscU1 => do_hex s c stateInStringEscU12
  | stateInStringEscU12 => do_hex s c stateInStringEscU123
  | stateInStringEscU123 => do_hex s c stateInString
  | stateNeg => do_stateNeg s c
  | state1 => do_state1 s c
  | state0 => do_state0 s c
  | stateDot => do_stateDot s c
  | stateDot0 => do_stateDot0 s c
  | stateE => do_stateE s c
  | stateESign => do_stateESign s c
  | stateE0 => do_stateE0 s c
  | stateT => do_literal s c "r" stateTr "in literal true (expecting 'r')"
  | stateTr => do_literal s c "u" stateTru "in literal true (expecting 'u')"
  | stateTru => do_literal s c "e" stateEndValue "in literal true (expecting 'e')"
  | stateF => do_literal s c "a" stateFa "in literal false (expecting 'a')"
  | stateFa => do_literal s c "l" stateFal "in literal false (expecting 'l')"
  | stateFal => do_literal s c "s" stateFals "in literal false (expecting 's')"
  | stateFals => do_literal s c "e" stateEndValue "in literal false (expecting 'e')"
  | stateN => do_literal s c "u" stateNu "in literal null (expecting 'u')"
  | stateNu => do_literal s c "l" stateNul "in literal null (expecting 'l')"
  | stateNul => do_literal s c "l" stateEndValue "in literal null (expecting 'l')"
  | stateError => (s, scanError)
  end.

(** [scanner.eof], as the error it leaves in the scanner: [None] when the
    input may end here ([scanEnd]). *)
Definition eof (s : scanner) : option string :=
  match err s with
  | Some e => Some e
  | None =>
      if endTop s then None
      else let s' := fst (stepByte s " ") in
           if endTop s' then None
           else Some (default "unexpected end of JSON input" (err s'))
  end.

(** The loop of [checkValid], from scanner state [s]. *)
Fixpoint checkFrom (s : scanner) (data : string) : option string :=
  match data with
  | EmptyString => eof s
  | String c data' =>
      match stepByte s c with
      | (s', scanError) => Some (default EmptyString (err s'))
      | (s', _) => checkFrom s' data'
      end
  end.

(** [checkValid(data, scan)]: [None] (no error) when [data] is one JSON
    value, white space around it allowed. *)
Definition checkValid (data : string) : option string := checkFrom reset data.

(** What [Decoder.readValue] finds in the stream. *)
Inductive scanned : Type :=
| Value (text rest : string)   (* the bytes of the next value, and what follows *)
| SyntaxError (context : string)
| ReadFailed (cause : string). (* the reader's error, [io.EOF] included *)

(** The loop of [Decoder.readValue] from scanner state [s], [seen] being the
    bytes scanned so far.  [data] is everything the reader delivers and
    [fault] how the stream ends: [None] for a clean end ([io.EOF]), [Some e]
    when a read fails with [e] after [data]. *)
Fixpoint readFrom (s : scanner) (seen data : string) (fault : option string) : scanned :=
  match data with
  | EmptyString =>
      match fault with
      | None =>
          match stepByte s " " with
          | (_, scanEnd) => Value seen EmptyString
          | _ => if existsb (fun c => negb (isSpace c)) seen
                 then ReadFailed "unexpected EOF" else ReadFailed "EOF"
          end
      | Some e => ReadFailed e
      end
  | String c data' =>
      match stepByte s c with
      | (_, scanEnd) => Value seen data
      | (s', scanEndObject) | (s', scanEndArray) =>
          match do_stateEndValue s' " " with
          | (_, scanEnd) => Value (snoc seen c) data'
          | (s'', _) => readFrom s'' (snoc seen c) data' fault
          end
      | (s', scanError) => SyntaxError (default EmptyString (err s'))
      | (s', _) => readFrom s' (snoc seen c) data' fault
      end
  end.

Definition readValue (data : string) (fault : option string) : scanned :=
  readFrom reset EmptyString data fault.

(** What holds of the scanner while [readValue] is still looking for the
    end of the value. *)
Definition scanning (s : scanner) : Prop :=
  err s = None /\ endTop s = false /\ step s <> stateEndTop /\
  (step s = stateBeginValueOrEmpty -> parseState s <> []).

(** The states in which the scanner is reading a number that may end
    here: [state0], [state1], [stateDot0] and [stateE0]. *)
Definition inNumber (f : stepfn) : bool :=
  match f with
  | state0 | state1 | stateDot0 | stateE0 => true
  | _ => false
  end.

(** The bytes on which those states go on with the number: a digit, [.],
    [e] and [E]. *)
Definition continuesNumber (c : ascii) : bool := isDigit c || oneOf ".eE" c.

(** The last byte of [s] is a digit. *)
Fixpoint endsInDigit (s : string) : bool :=
  match s with
  | EmptyString => false
  | String c EmptyString => isDigit c
  | String _ s' => endsInDigit s'
  end.

(** The byte [x] after [text], which the scanner in state [s] has still to
    read, cannot run on into the value of [text]. *)
Definition stopsAt (s : scanner) (text : string) (x : ascii) : Prop :=
  continuesNumber x = false \/
  match text with
  | EmptyString => inNumber (step s) = false
  | _ => endsInDigit text = false
  end.

(** A destination of decoding: the Go value behind the [interface{}] that
    [Unmarshal] and [Decode] are handed.  [unmarshal text v] is
    [decodeState.unmarshal] on the well-formed JSON [text]: the new contents
    of the destination and the error, if the value does not fit (the
    destination may be changed even so; a [result] that is nil or not a
    pointer is a destination nothing fits, [InvalidUnmarshalError]). *)
Class Unmarshaler (D : Type) : Type := {
  unmarshal : string -> D -> D * option string
}.

(** [decodeState.unmarshal] reads one value and never looks at the white
    space after it. *)
Definition ignoresTrailingSpace (D : Type) `{Unmarshaler D} : Prop :=
  forall text ws v,
    forallb isSpace ws = true -> unmarshal (text ++ ws) v = unmarshal text v.

(** [json.Unmarshal(data, v)]: the whole of [data] is checked before
    anything is stored. *)
Definition Unmarshal {D} `{Unmarshaler D} (data : string) (v : D) : D * option string :=
  match checkValid data with
  | Some e => (v, Some e)
  | None => unmarshal data v
  end.

(** [json.NewDecoder(r).Decode(v)] on a fresh decoder, [r] delivering
    [data] and then ending as [fault] says. *)
Definition Decode {D} `{Unmarshaler D} (data : string) (fault : option string) (v : D)
    : D * option string :=
  match readValue data fault with
  | Value text _ => unmarshal text v
  | SyntaxError e => (v, Some e)
  | ReadFailed e => (v, Some e)
  end.

(** A Go value that can be handed to [json.Marshal]: its encoding, or the
    error ([UnsupportedTypeError], [UnsupportedValueError], the error of a
    [MarshalJSON] method). *)
Class Marshaler (B : Type) : Type := {
  Marshal : B -> string + string
}.

End json.

(** ** net/url *)

Module url.

Import bytes.

(** [url.Values], a [map[string][]string]. *)
Abbreviation Values := (gmap string (list string)).

Definition upperhex (n : N) : ascii :=
  match String.get (N.to_nat n) "0123456789ABCDEF" with
  | Some c => c
  | None => "0"%char
  end.

(** [shouldEscape(c, encodeQueryComponent)]: everything but the unreserved
    characters. *)
Definition shouldEscapeQueryComponent (c : ascii) : bool :=
  negb (isAlnum c || oneOf "-_.~" c).

(** [url.QueryEscape]. *)
Fixpoint QueryEscape (s : string) : string :=
  match s with
  | EmptyString => EmptyString
  | String c s' =>
      if Ascii.eqb c " " then String "+" (QueryEscape s')
      else if shouldEscapeQueryComponent c
      then String "%" (String (upperhex (N.shiftr (code c) 4))
             (String (upperhex (N.land (code c) 15)) (QueryEscape s')))
      else String c (QueryEscape s')
  end.

(** The keys in the order of [slices.Sort]: bytewise lexicographic, which
    is [String.le]. *)
Definition sortedKeys (v : Values) : list string :=
  merge_sort String.le (map fst (map_to_list v)).

(** The [key=value] pieces [Values.Encode] writes, in the order it writes
    them. *)
Definition encodedPairs (v : Values) : list string :=
  flat_map
    (fun k => map (fun x => QueryEscape k ++ "=" ++ QueryEscape x)
                  (default [] (v !! k)))
    (sortedKeys v).

(** [Values.Encode]: the pieces joined by [&] (a piece is never empty, so
    the buffer is non-empty exactly from the second piece on). *)
Definition Encode (v : Values) : string := String.concat "&" (encodedPairs v).

(** [form.Encode()] where [form] may be the nil map, which has no keys. *)
Definition EncodeNilable (v : option Values) : string :=
  match v with
  | Some m => Encode m
  | None => EmptyString
  end.

(** [ishex] and [unhex] of url.go; Go's [unhex] panics on a byte that is
    no hexadecimal digit, which [unescape] never hands it. *)
Definition ishex (c : ascii) : bool :=
  isDigit c || between "a" "f" c || between "A" "F" c.

Definition unhex (c : ascii) : N :=
  if isDigit c then (code c - code "0")%N
  else if between "a" "f" c then (code c - code "a" + 10)%N
  else if between "A" "F" c then (code c - code "A" + 10)%N
  else 0%N.

(** The first loop of [unescape(s, encodeQueryComponent)]: the malformed
    escape, if there is one (a [%] without two hexadecimal digits after
    it, cut to three bytes). *)
Fixpoint badEscape (s : string) : option string :=
  match s with
  | EmptyString => None
  | String c s' =>
      if Ascii.eqb c "%"
      then match s' with
           | String a (String b s'') =>
               if ishex a && ishex b then badEscape s''
               else Some (String c (String a (String b EmptyString)))
           | _ => Some s
           end
      else badEscape s'
  end.

(** Its second loop: the bytes written out, [+] read as a space. *)
Fixpoint unescaped (s : string) : string :=
  match s with
  | EmptyString => EmptyString
  | String c s' =>
      if Ascii.eqb c "%"
      then match s' with
           | String a (String b s'') =>
               String (ascii_of_N (N.lor (N.shiftl (unhex a) 4) (unhex b)))
                      (unescaped s'')
           | _ => EmptyString
           end
      else if Ascii.eqb c "+" then String " " (unescaped s')
      else String c (unescaped s')
  end.

(** [url.QueryUnescape], the inverse of [QueryEscape] that a server applies
    to the keys and values of a query: the decoded text, or the malformed
    escape ([EscapeError]).  A text without [%] and [+] is returned as it
    is. *)
Definition QueryUnescape (s : string) : string + string :=
  match badEscape s with
  | Some e => inl e
  | None =>
      if existsb (fun c => Ascii.eqb c "%" || Ascii.eqb c "+") s
      then inr (unescaped s)
      else inr s
  end.

Record Userinfo : Type := {
  username : string;
  password : string;
  passwordSet : bool
}.

(** [url.URL]. *)
Record URL : Type := {
  Scheme : string;
  Opaque : string;
  User : option Userinfo;
  Host : string;
  Path : string;
  RawPath : string;
  OmitHost : bool;
  ForceQuery : bool;
  RawQuery : string;
  Fragment : string;
  RawFragment : string
}.

(** [u.RawQuery = q]. *)
Definition setRawQuery (q : string) (u : URL) : URL :=
  {| Scheme := Scheme u; Opaque := Opaque u; User := User u; Host := Host u;
     Path := Path u; RawPath := RawPath u; OmitHost := OmitHost u;
     ForceQuery := ForceQuery u; RawQuery := q; Fragment := Fragment u;
     RawFragment := RawFragment u |}.

(** [u.Host = h]. *)
Definition setHost (h : string) (u : URL) : URL :=
  {| Scheme := Scheme u; Opaque := Opaque u; User := User u; Host := h;
     Path := Path u; RawPath := RawPath u; OmitHost := OmitHost u;
     ForceQuery := ForceQuery u; RawQuery := RawQuery u; Fragment := Fragment u;
     RawFragment := RawFragment u |}.

(** The two functions of net/url whose result depends on the whole URL
    grammar: [url.Parse] (the URL or the error) and [URL.String].  The
    helpers are verified for every such pair of functions. *)
Class Impl : Type := {
  Parse : string -> string + URL;
  String_ : URL -> string
}.

End url.

(** ** net/http *)

Module http.

Import bytes.

(** The bytes of an HTTP token: [validHeaderFieldByte] of net/textproto,
    [httpguts.IsTokenRune]. *)
Definition isToken (c : ascii) : bool :=
  isAlnum c || oneOf "!#$%&'*+-.^_`|~" c.

Definition toUpper (c : ascii) : ascii := ascii_of_N (code c - 32).
Definition toLower (c : ascii) : ascii := ascii_of_N (code c + 32).

(** The rewriting loop of [canonicalMIMEHeaderKey]: upper case for the first
    letter and after each dash, lower case elsewhere. *)
Fixpoint canonical (upper : bool) (s : string) : string :=
  match s with
  | EmptyString => EmptyString
  | String c s' =>
      let c' := if upper && isLower c then toUpper c
                else if negb upper && isUpper c then toLower c
                else c in
      String c' (canonical (Ascii.eqb c' "-") s')
  end.

(** [textproto.CanonicalMIMEHeaderKey]: a key with a byte that is not a
    token byte is returned unchanged. *)
Definition CanonicalMIMEHeaderKey (s : string) : string :=
  if forallb isToken s then canonical true s else s.

(** [h.Set(key, value)] on an [http.Header], a [map[string][]string]. *)
Definition Header_Set (key value : string) (h : gmap string (list string))
    : gmap string (list string) :=
  <[CanonicalMIMEHeaderKey key := [value]]> h.

(** [context.Context]: the nil interface, or a context, already done
    (cancelled, past its deadline) or not. *)
Inductive Context : Type :=
| NilContext
| Ctx (done : bool).

(** [http.Request], as far as the helpers fill it in.  [ReqBody] is what the
    body reader will deliver, [None] for no body. *)
Record Request : Type := {
  ctx : Context;
  Method : string;
  URL : url.URL;
  Header : gmap string (list string);
  ReqBody : option string;
  Host : string
}.

(** [req.Header.Set(key, value)]. *)
Definition Request_SetHeader (key value : string) (req : Request) : Request :=
  {| ctx := ctx req; Method := Method req; URL := URL req;
     Header := Header_Set key value (Header req);
     ReqBody := ReqBody req; Host := Host req |}.

(** A response body, an [io.ReadCloser]: the bytes it delivers and how the
    stream ends, [None] for [io.EOF], [Some e] when a read fails with [e]
    after [data]. *)
Record body : Type := {
  data : string;
  fault : option string
}.

(** [http.Response]. *)
Record Response : Type := {
  StatusCode : Z;
  Body : body
}.

Definition StatusOK : Z := 200.
Definition MethodGet : string := "GET".
Definition MethodPost : string := "POST".

(** [*http.Client]: what [client.Do(req)] returns, the response or the
    error.  Transport, timeouts, redirects and cancellation are the
    client's business.  The pointer is not nil. *)
Record Client : Type := {
  Do : Request -> string + Response
}.

(** What the zero [http.Client] does with a request: the default transport
    and the network behind it. *)
Class Net : Type := {
  DefaultTransport : Request -> string + Response
}.

(** [&http.Client{}]. *)
Definition zeroClient `{Net} : Client := {| Do := DefaultTransport |}.

Definition validMethod (method : string) : bool :=
  (0 <? String.length method)%nat && forallb isToken method.

(** [strings.LastIndex(s, c)] for a single byte, [-1] when absent; [i] is
    the index of the first byte of [s]. *)
Fixpoint lastIndexFrom (i : Z) (c : ascii) (s : string) : Z :=
  match s with
  | EmptyString => -1
  | String x s' =>
      let later := lastIndexFrom (i + 1) c s' in
      if (0 <=? later)%Z then later
      else if Ascii.eqb x c then i else -1
  end.

Definition lastIndex (c : ascii) (s : string) : Z := lastIndexFrom 0 c s.

(** [strings.TrimSuffix(s, ":")]. *)
Fixpoint trimColonSuffix (s : string) : string :=
  match s with
  | EmptyString => EmptyString
  | String c EmptyString => if Ascii.eqb c ":" then EmptyString else s
  | String c s' => String c (trimColonSuffix s')
  end.

Definition hasPort (s : string) : bool := (lastIndex "]" s <? lastIndex ":" s)%Z.

Definition removeEmptyPort (host : string) : string :=
  if hasPort host then trimColonSuffix host else host.

(** [http.NewRequestWithContext(ctx, method, url, body)]. *)
Definition NewRequestWithContext `{url.Impl} (ctx : Context) (method url : string)
    (body : option string) : string + Request :=
  let method := if String.eqb method EmptyString then "GET" else method in
  if negb (validMethod method) then inl "net/http: invalid method"
  else match ctx with
  | NilContext => inl "net/http: nil Context"
  | Ctx _ =>
      match url.Parse url with
      | inl e => inl e
      | inr u =>
          let u := url.setHost (removeEmptyPort (url.Host u)) u in
          inr {| ctx := ctx; Method := method; URL := u; Header := ∅;
                 ReqBody := body; Host := url.Host u |}
      end
  end.

End http.

(** ** package util *)

Module util.

Import bytes.

(** The error a helper returns.  Each constructor stands for the
    [fmt.Errorf] calls named at it; [cause] is the wrapped error ([%w]). *)
Inductive error : Type :=
| InvalidEndpoint (cause : string)
    (* "invalid endpoint: %w" *)
| RequestConstructionError (cause : string)
    (* "create request failed: %w", "failed to create request: %w" *)
| TransportError (cause : string)
    (* "http request failed: %w", "failed to send request: %w" *)
| ReadBodyError (cause : string)
    (* "failed to read response body: %w" *)
| UnexpectedStatus (code : Z) (bodySnippet : option string)
    (* "unexpected status code: %d", "unexpected status code: %d, body: %s",
       "request failed with status code %d: %s"; [None] where the message
       has no body in it *)
| EncodeError (cause : string)
    (* "marshal json failed: %w" *)
| DecodeError (cause : string).
    (* "decode response failed: %w", "failed to parse JSON response: %w" *)

(** What a call does to the outside world, in the order it does it. *)
Inductive event : Type :=
| ENewRequest (method url : string)
    (* http.NewRequestWithContext *)
| EDo (req : http.Request) (answer : string + http.Response)
    (* client.Do(req) and what it returned *)
| EReadAll
    (* io.ReadAll(resp.Body) *)
| EDecode
    (* json.NewDecoder(resp.Body).Decode(result) *)
| EUnmarshal
    (* json.Unmarshal(body, result) *)
| EClose.
    (* resp.Body.Close() *)

(** The state a call runs in: the events so far, oldest first, and the
    value behind the caller's [result] pointer. *)
Record state (D : Type) : Type := State {
  log : list event;
  result : D
}.
Arguments State {D} _ _.
Arguments log {D} _.
Arguments result {D} _.

(** A computation that returns early with an [error] or goes on with an
    [A]. *)
Definition M (D A : Type) : Type := state D -> (error + A) * state D.

Definition ret {D A} (a : A) : M D A := fun s => (inr a, s).

Definition fail {D A} (e : error) : M D A := fun s => (inl e, s).

Definition bind {D A B} (m : M D A) (k : A -> M D B) : M D B :=
  fun s =>
    match m s with
    | (inl e, s') => (inl e, s')
    | (inr a, s') => k a s'
    end.

Notation "x <- m ;; k" := (bind m (fun x => k))
  (at level 100, m at next level, right associativity).
Notation "m ;;; k" := (bind m (fun _ => k))
  (at level 100, right associativity).

Definition emit {D} (ev : event) : M D unit :=
  fun s => (inr tt, State (log s ++ [ev]) (result s)).

(** [defer cleanup] at the head of [m]: [cleanup] runs when [m] is left,
    however it is left, and the outcome is [m]'s. *)
Definition defer {D A} (cleanup : M D unit) (m : M D A) : M D A :=
  fun s =>
    let '(r, s') := m s in
    (r, snd (cleanup s')).

(** [x, err := f(...); if err != nil { return wrap(err) }]. *)
Definition orReturn {D A} (wrap : string -> error) (r : string + A) : M D A :=
  match r with
  | inl err => fail (wrap err)
  | inr a => ret a
  end.

(** A call of one of the five exported functions, with its arguments (the
    [result] pointer apart, which is the destination of the state). *)
Inductive call (B : Type) : Type :=
| CallPostForm (ctx : http.Context) (client : http.Client) (endpoint : string)
    (form : option url.Values)
| CallGetWithCustomHeaders (ctx : http.Context) (client : http.Client)
    (url : string) (headers : list (string * string))
| CallPostFormWithHeaders (ctx : http.Context) (client : http.Client)
    (url : string) (form : option url.Values) (headers : list (string * string))
| CallPostJSONWithAuth (ctx : http.Context) (client : http.Client)
    (endpoint : string) (body : B) (token : string)
| CallHTTPGet (ctx : http.Context) (url : string).
Arguments CallPostForm {B} _ _ _ _.
Arguments CallGetWithCustomHeaders {B} _ _ _ _.
Arguments CallPostFormWithHeaders {B} _ _ _ _ _.
Arguments CallPostJSONWithAuth {B} _ _ _ _ _.
Arguments CallHTTPGet {B} _ _.

Section helpers.

Context {D : Type} `{!json.Unmarshaler D} `{!url.Impl}.

(** The library calls that touch the outside world, with their event. *)

Definition http_NewRequestWithContext (ctx : http.Context) (method url : string)
    (body : option string) : M D (string + http.Request) :=
  emit (ENewRequest method url) ;;;
  ret (http.NewRequestWithContext ctx method url body).

Definition client_Do (client : http.Client) (req : http.Request)
    : M D (string + http.Response) :=
  let answer := http.Do client req in
  emit (EDo req answer) ;;;
  ret answer.

Definition Body_Close (resp : http.Response) : M D unit := emit EClose.

(** [io.ReadAll(resp.Body)]: the bytes read and the error. *)
Definition io_ReadAll (b : http.body) : M D (string * option string) :=
  emit EReadAll ;;;
  ret (http.data b, http.fault b).

(** [json.NewDecoder(resp.Body).Decode(result)]: stores into the
    destination, returns the error. *)
Definition Decoder_Decode (b : http.body) : M D (option string) :=
  emit EDecode ;;;
  fun s =>
    let '(v, err) := json.Decode (http.data b) (http.fault b) (result s) in
    (inr err, State (log s) v).

(** [json.Unmarshal(body, result)]. *)
Definition json_Unmarshal (body : string) : M D (option string) :=
  emit EUnmarshal ;;;
  fun s =>
    let '(v, err) := json.Unmarshal body (result s) in
    (inr err, State (log s) v).

(** [if err != nil { return wrap(err) }] for an error alone. *)
Definition check (wrap : string -> error) (err : option string) : M D unit :=
  match err with
  | Some e => fail (wrap e)
  | None => ret tt
  end.

(** [newRequest]. *)
Definition newRequest (ctx : http.Context) (method endpoint : string)
    (query form : option url.Values) (token : string) : M D http.Request :=
  u <- orReturn InvalidEndpoint (url.Parse endpoint) ;;
  let u := match query with
           | Some q => url.setRawQuery (url.Encode q) u
           | None => u
           end in
  let '(body, contentType) :=
    match form with
    | Some f => (Some (url.Encode f), "application/x-www-form-urlencoded")
    | None => (None, EmptyString)
    end in
  r <- http_NewRequestWithContext ctx method (url.String_ u) body ;;
  req <- orReturn RequestConstructionError r ;;
  let req := if String.eqb contentType EmptyString then req
             else http.Request_SetHeader "Content-Type" contentType req in
  let req := if String.eqb token EmptyString then req
             else http.Request_SetHeader "Authorization" ("Bearer " ++ token) req in
  ret req.

(** [doRequest]. *)
Definition doRequest (client : http.Client) (req : http.Request) : M D unit :=
  r <- client_Do client req ;;
  resp <- orReturn TransportError r ;;
  defer (Body_Close resp) (
    if negb (http.StatusCode resp =? http.StatusOK)%Z
    then fail (UnexpectedStatus (http.StatusCode resp) None)
    else
      err <- Decoder_Decode (http.Body resp) ;;
      check DecodeError err).

(** [PostForm]. *)
Definition PostForm (ctx : http.Context) (client : http.Client) (endpoint : string)
    (form : option url.Values) : M D unit :=
  req <- newRequest ctx http.MethodPost endpoint None form EmptyString ;;
  doRequest client req.

(** [for key, value := range headers { req.Header.Set(key, value) }];
    [headers] lists the entries of the map in the order the loop meets
    them, which Go leaves open. *)
Definition setHeaders (headers : list (string * string)) (req : http.Request)
    : http.Request :=
  fold_left (fun r kv => http.Request_SetHeader (fst kv) (snd kv) r) headers req.

(** [GetWithCustomHeaders]. *)
Definition GetWithCustomHeaders (ctx : http.Context) (client : http.Client)
    (url : string) (headers : list (string * string)) : M D unit :=
  r <- http_NewRequestWithContext ctx http.MethodGet url None ;;
  req <- orReturn RequestConstructionError r ;;
  let req := setHeaders headers req in
  r <- client_Do client req ;;
  resp <- orReturn TransportError r ;;
  defer (Body_Close resp) (
    if negb (http.StatusCode resp =? http.StatusOK)%Z
    then
      b <- io_ReadAll (http.Body resp) ;;
      fail (UnexpectedStatus (http.StatusCode resp) (Some (fst b)))
    else
      err <- Decoder_Decode (http.Body resp) ;;
      check DecodeError err).

(** [PostFormWithHeaders]. *)
Definition PostFormWithHeaders (ctx : http.Context) (client : http.Client)
    (url : string) (form : option url.Values) (headers : list (string * string))
    : M D unit :=
  r <- http_NewRequestWithContext ctx http.MethodPost url
         (Some (url.EncodeNilable form)) ;;
  req <- orReturn RequestConstructionError r ;;
  let req := setHeaders headers req in
  r <- client_Do client req ;;
  resp <- orReturn TransportError r ;;
  defer (Body_Close resp) (
    if negb (http.StatusCode resp =? http.StatusOK)%Z
    then
      b <- io_ReadAll (http.Body resp) ;;
      fail (UnexpectedStatus (http.StatusCode resp) (Some (fst b)))
    else
      err <- Decoder_Decode (http.Body resp) ;;
      check DecodeError err).

(** [PostJSONWithAuth]. *)
Definition PostJSONWithAuth {B} `{!json.Marshaler B} (ctx : http.Context)
    (client : http.Client) (endpoint : string) (body : B) (token : string)
    : M D unit :=
  jsonBody <- orReturn EncodeError (json.Marshal body) ;;
  r <- http_NewRequestWithContext ctx http.MethodPost endpoint (Some jsonBody) ;;
  req <- orReturn RequestConstructionError r ;;
  let req := http.Request_SetHeader "Content-Type" "application/json" req in
  let req := http.Request_SetHeader "Authorization" ("Bearer " ++ token) req in
  r <- client_Do client req ;;
  resp <- orReturn TransportError r ;;
  defer (Body_Close resp) (
    if negb (http.StatusCode resp =? http.StatusOK)%Z
    then
      b <- io_ReadAll (http.Body resp) ;;
      fail (UnexpectedStatus (http.StatusCode resp) (Some (fst b)))
    else
      err <- Decoder_Decode (http.Body resp) ;;
      check DecodeError err).

(** [HTTPGet]. *)
Definition HTTPGet `{!http.Net} (ctx : http.Context) (url : string) : M D unit :=
  r <- http_NewRequestWithContext ctx http.MethodGet url None ;;
  req <- orReturn RequestConstructionError r ;;
  let client := http.zeroClient in
  r <- client_Do client req ;;
  resp <- orReturn TransportError r ;;
  defer (Body_Close resp) (
    b <- io_ReadAll (http.Body resp) ;;
    check ReadBodyError (snd b) ;;;
    let body := fst b in
    if negb (http.StatusCode resp =? http.StatusOK)%Z
    then fail (UnexpectedStatus (http.StatusCode resp) (Some body))
    else
      err <- json_Unmarshal body ;;
      check DecodeError err).

Definition invoke {B} `{!json.Marshaler B} `{!http.Net} (c : call B) : M D unit :=
  match c with
  | CallPostForm ctx client endpoint form => PostForm ctx client endpoint form
  | CallGetWithCustomHeaders ctx client url headers =>
      GetWithCustomHeaders ctx client url headers
  | CallPostFormWithHeaders ctx client url form headers =>
      PostFormWithHeaders ctx client url form headers
  | CallPostJSONWithAuth ctx client endpoint body token =>
      PostJSONWithAuth ctx client endpoint body token
  | CallHTTPGet ctx url => HTTPGet ctx url
  end.

(** The call from a fresh log, the destination holding [d]: the returned
    error ([inr tt] for nil) and the final state. *)
Definition run {B} `{!json.Marshaler B} `{!http.Net} (c : call B) (d : D)
    : (error + unit) * state D :=
  invoke c (State [] d).

(** The call takes its client from the caller ([HTTPGet] makes its own). *)
Definition takesClient {B} (c : call B) : bool :=
  match c with
  | CallHTTPGet _ _ => false
  | _ => true
  end.

End helpers.

(** The client answered [req] with the response [resp] during the run that
    ended in [s]. *)
Definition answered {D} (s : state D) (req : http.Request) (resp : http.Response)
    : Prop :=
  EDo req (inr resp) ∈ log s.

(** The returned error is an [UnexpectedStatus] for [code]. *)
Definition isUnexpectedStatus (r : error + unit) (code : Z) : Prop :=
  exists snippet, r = inl (UnexpectedStatus code snippet).

Definition isDecodeError (r : error + unit) : Prop :=
  exists cause, r = inl (DecodeError cause).

(** The three ways the helpers treat a response: [doRequest] (status, then
    the decoder), the code repeated in [GetWithCustomHeaders],
    [PostFormWithHeaders] and [PostJSONWithAuth] (status with the body read
    for the error, then the decoder), and [HTTPGet] (the whole body read
    first, then status, then [Unmarshal]). *)
Inductive treatment : Type :=
| viaDoRequest | bodyInError | readAllFirst.

Definition treatmentOf {B} (c : call B) : treatment :=
  match c with
  | CallPostForm _ _ _ _ => viaDoRequest
  | CallHTTPGet _ _ => readAllFirst
  | _ => bodyInError
  end.

(** The returned error for the [err] of the decoding step. *)
Definition decoded (err : option string) : error + unit :=
  match err with
  | Some e => inl (DecodeError e)
  | None => inr tt
  end.

(** What a call comes to once the client has answered with [resp]: the
    returned error, the events after [client.Do] and the destination.
    [run_settle] below proves that the helpers do just this. *)
Definition settle {D} `{!json.Unmarshaler D} (t : treatment) (resp : http.Response)
    (d : D) : (error + unit) * list event * D :=
  let code := http.StatusCode resp in
  let b := http.Body resp in
  match t with
  | viaDoRequest =>
      if (code =? http.StatusOK)%Z
      then let '(v, err) := json.Decode (http.data b) (http.fault b) d in
           (decoded err, [EDecode; EClose], v)
      else (inl (UnexpectedStatus code None), [EClose], d)
  | bodyInError =>
      if (code =? http.StatusOK)%Z
      then let '(v, err) := json.Decode (http.data b) (http.fault b) d in
           (decoded err, [EDecode; EClose], v)
      else (inl (UnexpectedStatus code (Some (http.data b))), [EReadAll; EClose], d)
  | readAllFirst =>
      match http.fault b with
      | Some e => (inl (ReadBodyError e), [EReadAll; EClose], d)
      | None =>
          if (code =? http.StatusOK)%Z
          then let '(v, err) := json.Unmarshal (http.data b) d in
               (decoded err, [EReadAll; EUnmarshal; EClose], v)
          else (inl (UnexpectedStatus code (Some (http.data b))),
                [EReadAll; EClose], d)
      end
  end.

(** *** The arguments of a call *)

Definition callCtx {B} (c : call B) : http.Context :=
  match c with
  | CallPostForm ctx _ _ _ => ctx
  | CallGetWithCustomHeaders ctx _ _ _ => ctx
  | CallPostFormWithHeaders ctx _ _ _ _ => ctx
  | CallPostJSONWithAuth ctx _ _ _ _ => ctx
  | CallHTTPGet ctx _ => ctx
  end.

(** The [endpoint] or [url] argument. *)
Definition callURL {B} (c : call B) : string :=
  match c with
  | CallPostForm _ _ endpoint _ => endpoint
  | CallGetWithCustomHeaders _ _ url _ => url
  | CallPostFormWithHeaders _ _ url _ _ => url
  | CallPostJSONWithAuth _ _ endpoint _ _ => endpoint
  | CallHTTPGet _ url => url
  end.

(** The method each function passes to the request constructor. *)
Definition methodOf {B} (c : call B) : string :=
  match c with
  | CallPostForm _ _ _ _ => http.MethodPost
  | CallGetWithCustomHeaders _ _ _ _ => http.MethodGet
  | CallPostFormWithHeaders _ _ _ _ _ => http.MethodPost
  | CallPostJSONWithAuth _ _ _ _ _ => http.MethodPost
  | CallHTTPGet _ _ => http.MethodGet
  end.

(** The [headers] argument of the two functions that have one. *)
Definition headersOf {B} (c : call B) : option (list (string * string)) :=
  match c with
  | CallGetWithCustomHeaders _ _ _ headers => Some headers
  | CallPostFormWithHeaders _ _ _ _ headers => Some headers
  | _ => None
  end.

Definition isDo (ev : event) : bool :=
  match ev with
  | EDo _ _ => true
  | _ => false
  end.

Definition isNewRequest (ev : event) : bool :=
  match ev with
  | ENewRequest _ _ => true
  | _ => false
  end.

(** The events that touch the response body. *)
Definition touchesBody (ev : event) : bool :=
  match ev with
  | EReadAll | EDecode | EUnmarshal | EClose => true
  | _ => false
  end.

(** The canonical name a caller header is set under. *)
Definition canonicalName (kv : string * string) : string :=
  http.CanonicalMIMEHeaderKey (fst kv).

(** The call marshals a JSON body. *)
Definition sendsJSON {B} (c : call B) : bool :=
  match c with
  | CallPostJSONWithAuth _ _ _ _ _ => true
  | _ => false
  end.

(** The bytes [url.QueryEscape] writes: the unreserved ones, [+] for a
    space, [%] and the hexadecimal digits of an escape. *)
Definition escapedByte (c : ascii) : bool := isAlnum c || oneOf "-_.~+%" c.

(** The bytes of an encoded form: those, [=] and [&]. *)
Definition formByte (c : ascii) : bool := escapedByte c || oneOf "=&" c.

End util.

(** ** Instances to run the helpers on

    The theorems below hold for every [url.Impl], [http.Net],
    [json.Unmarshaler] and [json.Marshaler]; the ones here serve to run the
    helpers on concrete calls. *)

Module sample.

Import bytes.

(** *** net/url on plain URLs

    [Parse] and [String_] below follow url.go on URLs
    [scheme://host:port/path?query#fragment] whose parts need no percent
    escape: scheme, query and fragment splitting, opaque URLs, the checks
    for control bytes, a missing scheme, a colon in the first segment of a
    relative path, the bytes of the host and the port.  They stop short of
    percent escapes, user information and bracketed IP literals: a path is
    taken as written, and a host with [%] or [@] in it is turned down.
    Errors are given by their message, without the [parse] and the URL that
    [url.Error] puts before it. *)

Definition stringContainsCTLByte (s : string) : bool :=
  existsb (fun c => (code c <? 32)%N || (code c =? 127)%N) s.

(** [strings.Cut(s, sep)] for a separator of one byte: before, after,
    found. *)
Fixpoint cut (sep : ascii) (s : string) : string * string * bool :=
  match s with
  | EmptyString => (EmptyString, EmptyString, false)
  | String c s' =>
      if Ascii.eqb c sep then (EmptyString, s', true)
      else let '(a, b, found) := cut sep s' in (String c a, b, found)
  end.

Definition hasPrefix (p s : string) : bool := String.prefix p s.

Definition contains (c : ascii) (s : string) : bool := existsb (Ascii.eqb c) s.

Fixpoint count (c : ascii) (s : string) : nat :=
  match s with
  | EmptyString => 0
  | String x s' => (if Ascii.eqb x c then 1 else 0) + count c s'
  end.

(** [s] is [init] followed by the byte [c]. *)
Fixpoint splitLast (s : string) : option (string * ascii) :=
  match s with
  | EmptyString => None
  | String c EmptyString => Some (EmptyString, c)
  | String c s' =>
      match splitLast s' with
      | Some (init, l) => Some (String c init, l)
      | None => None
      end
  end.

Definition lowerByte (c : ascii) : ascii :=
  if isUpper c then http.toLower c else c.

Fixpoint ToLower (s : string) : string :=
  match s with
  | EmptyString => EmptyString
  | String c s' => String (lowerByte c) (ToLower s')
  end.

(** The loop of [getScheme]: [seen] is [rawURL[:i]], [s] is [rawURL[i:]]. *)
Fixpoint getSchemeFrom (rawURL seen s : string) : string + (string * string) :=
  match s with
  | EmptyString => inr (EmptyString, rawURL)
  | String c s' =>
      if isLower c || isUpper c then getSchemeFrom rawURL (snoc seen c) s'
      else if isDigit c || oneOf "+-." c
      then match seen with
           | EmptyString => inr (EmptyString, rawURL)
           | _ => getSchemeFrom rawURL (snoc seen c) s'
           end
      else if Ascii.eqb c ":"
      then match seen with
           | EmptyString => inl "missing protocol scheme"
           | _ => inr (seen, s')
           end
      else inr (EmptyString, rawURL)
  end.

Definition getScheme (rawURL : string) : string + (string * string) :=
  getSchemeFrom rawURL EmptyString rawURL.

(** [validOptionalPort]: empty, or a colon and digits. *)
Definition validOptionalPort (port : string) : bool :=
  match port with
  | EmptyString => true
  | String c digits => Ascii.eqb c ":" && forallb isDigit digits
  end.

(** The bytes a host may hold unescaped ([shouldEscape(c, encodeHost)] is
    false), bytes from 0x80 on included. *)
Definition hostByte (c : ascii) : bool :=
  isAlnum c || oneOf "!$&'()*+,;=:[]<>-_.~" c || Ascii.eqb c dquote
  || (128 <=? code c)%N.

(** The tail of [s] from its last colon on, [EmptyString] without one. *)
Definition colonPort (s : string) : string :=
  let i := http.lastIndex ":" s in
  if (i <? 0)%Z then EmptyString
  else String.substring (Z.to_nat i) (String.length s - Z.to_nat i) s.

(** [parseHost], bracketed IP literals apart. *)
Definition parseHost (host : string) : string + string :=
  if negb (validOptionalPort (colonPort host))
  then inl "invalid port after host"
  else if forallb hostByte host then inr host
  else inl "invalid character in host name".

(** [parse(rawURL, false)]. *)
Definition parse (rawURL : string) : string + url.URL :=
  if stringContainsCTLByte rawURL
  then inl "net/url: invalid control character in URL"
  else if String.eqb rawURL "*"
  then inr {| url.Scheme := EmptyString; url.Opaque := EmptyString;
              url.User := None; url.Host := EmptyString; url.Path := "*";
              url.RawPath := EmptyString; url.OmitHost := false;
              url.ForceQuery := false; url.RawQuery := EmptyString;
              url.Fragment := EmptyString; url.RawFragment := EmptyString |}
  else
    match getScheme rawURL with
    | inl e => inl e
    | inr (scheme, rest) =>
        let scheme := ToLower scheme in
        let '(rest, force, query) :=
          match splitLast rest with
          | Some (init, l) =>
              if Ascii.eqb l "?" && (count "?" rest =? 1)%nat
              then (init, true, EmptyString)
              else let '(a, b, _) := cut "?" rest in (a, false, b)
          | None => (rest, false, EmptyString)
          end in
        let build opaque host path omit :=
          {| url.Scheme := scheme; url.Opaque := opaque; url.User := None;
             url.Host := host; url.Path := path; url.RawPath := EmptyString;
             url.OmitHost := omit; url.ForceQuery := force;
             url.RawQuery := query; url.Fragment := EmptyString;
             url.RawFragment := EmptyString |} in
        if negb (hasPrefix "/" rest) && negb (String.eqb scheme EmptyString)
        then inr (build rest EmptyString EmptyString false)
        else if negb (hasPrefix "/" rest) && contains ":" (fst (fst (cut "/" rest)))
        then inl "first path segment in URL cannot contain colon"
        else if (negb (String.eqb scheme EmptyString) || negb (hasPrefix "///" rest))
                && hasPrefix "//" rest
        then
          let '(authority, path, found) :=
            cut "/" (String.substring 2 (String.length rest - 2) rest) in
          let path := if found then String "/" path else EmptyString in
          match parseHost authority with
          | inl e => inl e
          | inr host => inr (build EmptyString host path false)
          end
        else if negb (String.eqb scheme EmptyString) && hasPrefix "/" rest
        then inr (build EmptyString EmptyString rest true)
        else inr (build EmptyString EmptyString rest false)
    end.

Definition setFragment (f : string) (u : url.URL) : url.URL :=
  {| url.Scheme := url.Scheme u; url.Opaque := url.Opaque u;
     url.User := url.User u; url.Host := url.Host u; url.Path := url.Path u;
     url.RawPath := url.RawPath u; url.OmitHost := url.OmitHost u;
     url.ForceQuery := url.ForceQuery u; url.RawQuery := url.RawQuery u;
     url.Fragment := f; url.RawFragment := EmptyString |}.

(** [url.Parse]. *)
Definition Parse (rawURL : string) : string + url.URL :=
  let '(u, frag, _) := cut "#" rawURL in
  match parse u with
  | inl e => inl e
  | inr parsed =>
      if String.eqb frag EmptyString then inr parsed
      else inr (setFragment frag parsed)
  end.

(** [URL.String], on the fields [Parse] above fills in. *)
Definition String_ (u : url.URL) : string :=
  let scheme := if String.eqb (url.Scheme u) EmptyString then EmptyString
                else url.Scheme u ++ ":" in
  let rest :=
    if negb (String.eqb (url.Opaque u) EmptyString) then url.Opaque u
    else
      let authority :=
        if negb (String.eqb (url.Scheme u) EmptyString)
           || negb (String.eqb (url.Host u) EmptyString)
        then
          if url.OmitHost u && String.eqb (url.Host u) EmptyString
          then EmptyString
          else (if negb (String.eqb (url.Host u) EmptyString)
                   || negb (String.eqb (url.Path u) EmptyString)
                then "//" else EmptyString) ++ url.Host u
        else EmptyString in
      let slash :=
        if negb (String.eqb (url.Path u) EmptyString)
           && negb (hasPrefix "/" (url.Path u))
           && negb (String.eqb (url.Host u) EmptyString)
        then "/" else EmptyString in
      let dot :=
        if String.eqb (scheme ++ authority) EmptyString
           && contains ":" (fst (fst (cut "/" (url.Path u))))
        then "./" else EmptyString in
      authority ++ slash ++ dot ++ url.Path u in
  let query :=
    if url.ForceQuery u || negb (String.eqb (url.RawQuery u) EmptyString)
    then "?" ++ url.RawQuery u else EmptyString in
  let fragment :=
    if String.eqb (url.Fragment u) EmptyString then EmptyString
    else "#" ++ url.Fragment u in
  scheme ++ rest ++ query ++ fragment.

Definition plainURL : url.Impl :=
  {| url.Parse := Parse; url.String_ := String_ |}.

(** *** A destination, a body, a network *)

Fixpoint skipSpace (s : string) : string :=
  match s with
  | EmptyString => EmptyString
  | String c s' => if json.isSpace c then skipSpace s' else s
  end.

(** [decodeState.unmarshal] into a [*bool]: [true] and [false] are stored,
    [null] leaves the destination alone, any other value is an
    [UnmarshalTypeError]; the literal is told by its first byte, the text
    being well-formed. *)
Definition unmarshalBool (text : string) (v : bool) : bool * option string :=
  match skipSpace text with
  | String c _ =>
      if Ascii.eqb c "t" then (true, None)
      else if Ascii.eqb c "f" then (false, None)
      else if Ascii.eqb c "n" then (v, None)
      else (v, Some "json: cannot unmarshal into Go value of type bool")
  | EmptyString => (v, Some "unexpected end of JSON input")
  end.

(** A [result] of type [*bool]. *)
Definition boolDestination : json.Unmarshaler bool :=
  {| json.unmarshal := unmarshalBool |}.

(** Two Go values for a JSON body: a [bool], which marshals, and a channel,
    which does not. *)
Inductive payload : Type :=
| Flag (b : bool)
| Channel.

Definition payloadMarshaler : json.Marshaler payload :=
  {| json.Marshal p :=
       match p with
       | Flag true => inr "true"
       | Flag false => inr "false"
       | Channel => inl "json: unsupported type: chan int"
       end |}.

(** A client that answers every request the same way. *)
Definition answering (a : string + http.Response) : http.Client :=
  {| http.Do := fun _ => a |}.

(** A network on which the zero client gets that answer. *)
Definition network (a : string + http.Response) : http.Net :=
  {| http.DefaultTransport := fun _ => a |}.

Definition offline : http.Net := network (inl "dial tcp: connection refused").

Definition response (code : Z) (data : string) (fault : option string)
    : http.Response :=
  {| http.StatusCode := code;
     http.Body := {| http.data := data; http.fault := fault |} |}.

(** The request [http.NewRequestWithContext] builds for [method] and
    [http://h/p?query], given these headers and this body. *)
Definition requestTo (method query : string)
    (headers : gmap string (list string)) (body : option string) : http.Request :=
  {| http.ctx := http.Ctx false; http.Method := method;
     http.URL :=
       {| url.Scheme := "http"; url.Opaque := EmptyString; url.User := None;
          url.Host := "h"; url.Path := "/p"; url.RawPath := EmptyString;
          url.OmitHost := false; url.ForceQuery := false;
          url.RawQuery := query; url.Fragment := EmptyString;
          url.RawFragment := EmptyString |};
     http.Header := headers; http.ReqBody := body; http.Host := "h" |}.

(** The run of a call with these instances, the destination a [*bool]. *)
Definition runOn (net : http.Net) (c : util.call payload) (d : bool)
    : (util.error + unit) * util.state bool :=
  @util.run bool boolDestination plainURL payload payloadMarshaler net c d.

Definition background : http.Context := http.Ctx false.

Definition overloaded : http.Response := response 503 "overloaded" None.

(** Status 503, and the connection lost in the middle of the body. *)
Definition cutShort : http.Response :=
  response 503 "overl" (Some "unexpected EOF").

Definition getStatus : util.call payload := util.CallHTTPGet background "http://h/p".

Definition aForm : url.Values := {[ "a" := ["1"] ]}.

Definition formHeader : gmap string (list string) :=
  {[ "Content-Type" := ["application/x-www-form-urlencoded"] ]}.

(** [PostForm] of [aForm] to a server that answers [resp]. *)
Definition postFormTo (resp : http.Response) : util.call payload :=
  util.CallPostForm background (answering (inr resp)) "http://h/p" (Some aForm).

(** [PostFormWithHeaders] of [aForm], no headers given. *)
Definition postFormBare (resp : http.Response) : util.call payload :=
  util.CallPostFormWithHeaders background (answering (inr resp)) "http://h/p"
    (Some aForm) [].

(** [PostJSONWithAuth] of [true] with the empty token. *)
Definition postJSONNoToken (resp : http.Response) : util.call payload :=
  util.CallPostJSONWithAuth background (answering (inr resp)) "http://h/p"
    (Flag true) EmptyString.

Definition jsonHeaders (token : string) : gmap string (list string) :=
  {[ "Content-Type" := ["application/json"];
     "Authorization" := ["Bearer " ++ token] ]}.

(** Status 200 and a JSON value alone. *)
Definition saysTrue : http.Response := response 200 "true" None.

(** Status 200 and a JSON value with more after it. *)
Definition saysTrueAndMore : http.Response := response 200 "true x" None.

Definition start : util.state bool := util.State [] false.

(** A client that cannot connect. *)
Definition refusing : http.Client := answering (inl "dial tcp: connection refused").

(** [PostForm] of [aForm] through a client that cannot connect. *)
Definition postFormRefused : util.call payload :=
  util.CallPostForm background refusing "http://h/p" (Some aForm).

(** [GetWithCustomHeaders] with these headers, in this order. *)
Definition getWith (headers : list (string * string)) (resp : http.Response)
    : util.call payload :=
  util.CallGetWithCustomHeaders background (answering (inr resp)) "http://h/p"
    headers.

(** Status 200 and the connection lost after the value and a space. *)
Definition trueThenBroken : http.Response :=
  response 200 "true " (Some "unexpected EOF").

(** Status 200 and a body that stops in the middle of a literal. *)
Definition saysTru : http.Response := response 200 "tru" None.

Definition formAndToken : gmap string (list string) :=
  <["Authorization" := ["Bearer tok123"]]>
    (<["Content-Type" := ["application/x-www-form-urlencoded"]]> ∅).

(** Query parameters with three keys that hold values, two of them under
    one key, some with bytes that need an escape. *)
Definition someQuery : url.Values :=
  {[ "b" := ["x y"; "z"]; "a" := ["1&2"]; "B" := ["3"]; "c" := [] ]}.

(** Status 200 and a body that goes on after the JSON value [1]. *)
Definition saysOneAndMore : http.Response := response 200 "1.x" None.

(** Status 200 and a digit right after the JSON value [true]. *)
Definition saysTrueThenOne : http.Response := response 200 "true1" None.

(** [PostForm] of [aForm] with any destination. *)
Definition runAny (D : Type) (UD : json.Unmarshaler D) (resp : http.Response)
    (d : D) : (util.error + unit) * util.state D :=
  @util.run D UD plainURL payload payloadMarshaler offline (postFormTo resp) d.

End sample.

(** * Properties *)

(** ** The models of the standard library, tried out *)

Module model_checks.

Import bytes.

Example checkValid_object :
  json.checkValid (quoted " {'a': [1, -2.5e+3, true, null, 'x\'y'], 'b': {}} ") = None.
Proof. reflexivity. Qed.

Example checkValid_rejects :
  json.checkValid EmptyString <> None /\
  json.checkValid "01" <> None /\
  json.checkValid "[1,]" <> None /\
  json.checkValid (quoted "{'a':1,}") <> None /\
  json.checkValid "1." <> None /\
  json.checkValid "tru" <> None /\
  json.checkValid "nul l" <> None /\
  json.checkValid (quoted "{'a':1}x") <> None.
Proof. repeat split; discriminate. Qed.

(** The decoder stops after the first value; a number, string or literal
    ends with the byte after it or with the end of the input. *)
Example readValue_first_value :
  json.readValue (quoted "{'a':1}x") None = json.Value (quoted "{'a':1}") "x" /\
  json.readValue " 12 34" None = json.Value " 12" " 34" /\
  json.readValue "12" None = json.Value "12" EmptyString /\
  json.readValue "[1][2]" None = json.Value "[1]" "[2]" /\
  json.readValue "truex" None = json.Value "true" "x".
Proof. repeat split; reflexivity. Qed.

Example readValue_failures :
  json.readValue EmptyString None = json.ReadFailed "EOF" /\
  json.readValue "[1," None = json.ReadFailed "unexpected EOF" /\
  json.readValue "12" (Some "connection reset") = json.ReadFailed "connection reset" /\
  json.readValue "[12]" (Some "connection reset") = json.Value "[12]" EmptyString /\
  json.readValue "trux" None = json.SyntaxError "in literal true (expecting 'e')".
Proof. repeat split; reflexivity. Qed.

Example QueryEscape_bytes :
  url.QueryEscape "a b&c=d/e~f_g-h.i+j" = "a+b%26c%3Dd%2Fe~f_g-h.i%2Bj".
Proof. reflexivity. Qed.

Example Encode_sorts_keys :
  url.Encode {[ "b" := ["x y"; "z"]; "a" := ["1&2"]; "B" := ["3"]; "c" := [] ]} =
  "B=3&a=1%262&b=x+y&b=z".
Proof. vm_compute. reflexivity. Qed.

Example Encode_nil_and_empty :
  url.EncodeNilable None = EmptyString /\ url.Encode ∅ = EmptyString.
Proof. split; reflexivity. Qed.

Example CanonicalMIMEHeaderKey_cases :
  http.CanonicalMIMEHeaderKey "content-type" = "Content-Type" /\
  http.CanonicalMIMEHeaderKey "CONTENT-TYPE" = "Content-Type" /\
  http.CanonicalMIMEHeaderKey "Authorization" = "Authorization" /\
  http.CanonicalMIMEHeaderKey "x-api key" = "x-api key".
Proof. repeat split; reflexivity. Qed.

Example Parse_plain :
  sample.Parse "https://api.example.com:8443/v1/x?a=b#top" =
    inr {| url.Scheme := "https"; url.Opaque := EmptyString; url.User := None;
           url.Host := "api.example.com:8443"; url.Path := "/v1/x";
           url.RawPath := EmptyString; url.OmitHost := false;
           url.ForceQuery := false; url.RawQuery := "a=b";
           url.Fragment := "top"; url.RawFragment := EmptyString |} /\
  sample.Parse ":8080/p" = inl "missing protocol scheme" /\
  sample.Parse "a/b:c" =
    inr {| url.Scheme := EmptyString; url.Opaque := EmptyString;
           url.User := None; url.Host := EmptyString; url.Path := "a/b:c";
           url.RawPath := EmptyString; url.OmitHost := false;
           url.ForceQuery := false; url.RawQuery := EmptyString;
           url.Fragment := EmptyString; url.RawFragment := EmptyString |} /\
  sample.Parse "a:b/c" =
    inr {| url.Scheme := "a"; url.Opaque := "b/c"; url.User := None;
           url.Host := EmptyString; url.Path := EmptyString;
           url.RawPath := EmptyString; url.OmitHost := false;
           url.ForceQuery := false; url.RawQuery := EmptyString;
           url.Fragment := EmptyString; url.RawFragment := EmptyString |} /\
  sample.Parse "http://h:8o/" = inl "invalid port after host".
Proof. repeat split; reflexivity. Qed.

Example String_after_Parse :
  match sample.Parse "https://api.example.com:8443/v1/x?a=b#top" with
  | inr u => sample.String_ u
  | inl e => e
  end = "https://api.example.com:8443/v1/x?a=b#top" /\
  match sample.Parse "http://h?" with
  | inr u => sample.String_ u
  | inl e => e
  end = "http://h?" /\
  match sample.Parse "mailto:joe" with
  | inr u => sample.String_ u
  | inl e => e
  end = "mailto:joe".
Proof. repeat split; reflexivity. Qed.

End model_checks.

(** ** The scanner: what [readValue] and [checkValid] have to do with each
    other *)

Module json_facts.

Import bytes json.

Lemma append_cons (c : ascii) (s t : string) : String c s ++ t = String c (s ++ t).
Proof. reflexivity. Qed.

Lemma append_nil_r (s : string) : s ++ EmptyString = s.
Proof.
  induction s as [|c s IH]; [reflexivity|].
  rewrite append_cons. now rewrite IH.
Qed.

Lemma append_assoc (a b c : string) : (a ++ b) ++ c = a ++ (b ++ c).
Proof.
  induction a as [|x a IH]; [reflexivity|].
  rewrite !append_cons. now rewrite IH.
Qed.

Lemma snoc_append (seen : string) (c : ascii) (t : string) :
  snoc seen c ++ t = seen ++ String c t.
Proof. unfold snoc. now rewrite append_assoc. Qed.

Lemma forallb_not_existsb (p : ascii -> bool) (s : string) :
  forallb p s = true -> existsb (fun c => negb (p c)) s = false.
Proof.
  induction s as [|c s IH]; cbn; [reflexivity|].
  intros [Hc Hs]%andb_true_iff. now rewrite Hc, IH.
Qed.

(** Splits the [if]s and [match]es of hypothesis [H], one at a time. *)
Ltac split_cases H :=
  repeat match type of H with
  | context [if ?b then _ else _] => destruct b eqn:?
  | context [match ?x with _ => _ end] => destruct x eqn:?
  end.

Ltac unfold_step H :=
  unfold stepByte, do_stateBeginValueOrEmpty, do_stateBeginStringOrEmpty,
    do_stateBeginString, do_stateBeginValue, do_stateInString,
    do_stateInStringEsc, do_hex, do_stateNeg, do_state1, do_state0,
    do_stateDot, do_stateDot0, do_stateE, do_stateESign, do_stateE0,
    do_literal, do_stateEndValue, do_stateEndTop, pushParseState,
    popParseState, error, setStep, setTop in H;
  cbn [step endTop parseState err fst snd tail] in H.

(** Once in [stateError], always an error. *)
Lemma checkFrom_stateError (s : scanner) (data : string) :
  step s = stateError -> err s <> None -> checkFrom s data <> None.
Proof.
  intros Hstep Herr. destruct data as [|c data]; cbn.
  - unfold eof. destruct (err s); congruence.
  - unfold stepByte. rewrite Hstep. discriminate.
Qed.

(** After the end of the top-level value only white space may follow. *)
Lemma checkFrom_stateEndTop (s : scanner) (data : string) :
  step s = stateEndTop -> checkFrom s data = None ->
  forallb isSpace data = true.
Proof.
  revert s. induction data as [|c data IH]; intros s Hstep Hcheck; [reflexivity|].
  cbn in Hcheck |- *. unfold stepByte in Hcheck. rewrite Hstep in Hcheck.
  unfold do_stateEndTop in Hcheck. destruct (isSpace c) eqn:Hc; cbn in *.
  - eauto.
  - exfalso. revert Hcheck. apply checkFrom_stateError; cbn; congruence.
Qed.

(** [scanEnd] is the answer of [stateEndTop] alone. *)
Lemma stepByte_scanEnd (s s' : scanner) (c : ascii) :
  stepByte s c = (s', scanEnd) ->
  (isSpace c = true /\ step s' = stateEndTop) \/
  (isSpace c = false /\ step s' = stateError /\ err s' <> None).
Proof.
  intros H. destruct s as [st et ps er]. unfold_step H.
  destruct st; split_cases H; inversion H; subst; cbn; auto;
    try (right; repeat split; auto; congruence).
Qed.

(** With a space for the next byte, [stateEndValue] ends the value exactly
    when nothing is open. *)
Lemma do_stateEndValue_space (s : scanner) :
  snd (do_stateEndValue s " ") = scanEnd <-> parseState s = [].
Proof.
  unfold do_stateEndValue. destruct (parseState s) as [|p ps]; cbn.
  - tauto.
  - split; discriminate.
Qed.

(** Closing an object or array either ends the top-level value or leaves
    the scanner inside the enclosing one. *)
Lemma stepByte_close (s s' : scanner) (c : ascii) (op : opcode) :
  stepByte s c = (s', op) -> op = scanEndObject \/ op = scanEndArray ->
  (parseState s' = [] /\ step s' = stateEndTop) \/
  (parseState s' <> [] /\ endTop s' = endTop s).
Proof.
  intros H Hop. destruct s as [st et ps er]. unfold_step H.
  destruct st; split_cases H; inversion H; subst; cbn;
    try (destruct Hop; discriminate); auto;
    try (right; split; [discriminate | reflexivity]).
Qed.

(** Any other step that is not the end leaves [endTop] alone. *)
Lemma stepByte_endTop (s s' : scanner) (c : ascii) (op : opcode) :
  stepByte s c = (s', op) ->
  op <> scanEnd -> op <> scanEndObject -> op <> scanEndArray ->
  endTop s' = endTop s.
Proof.
  intros H H1 H2 H3. destruct s as [st et ps er]. unfold_step H.
  destruct st; split_cases H; inversion H; subst; cbn; congruence.
Qed.

(** At the end of the input the value is complete only if a space would
    end it. *)
Lemma stepByte_space_endTop (s : scanner) :
  endTop s = false -> endTop (fst (stepByte s " ")) = true ->
  snd (stepByte s " ") = scanEnd.
Proof.
  intros Het H. destruct s as [st et ps er]. cbn in Het. subst et.
  destruct (stepByte _ _) as [s' op] eqn:E. cbn in H |- *.
  unfold_step E.
  destruct st; split_cases E; inversion E; subst; cbn in *; congruence.
Qed.

(** Inside an enclosing object or array, the space [readValue] invents
    after a closing bracket changes nothing. *)
Lemma stepByte_close_inner (s s' : scanner) (c : ascii) (op : opcode) :
  stepByte s c = (s', op) -> op = scanEndObject \/ op = scanEndArray ->
  parseState s' <> [] -> do_stateEndValue s' " " = (s', scanSkipSpace).
Proof.
  intros H Hop Hne. destruct s as [st et ps er]. unfold_step H.
  destruct st; split_cases H; inversion H; subst; cbn in *;
    try (destruct Hop; discriminate); try congruence; reflexivity.
Qed.

(** The equations of the two loops. *)

Lemma checkFrom_step (s s' : scanner) (c : ascii) (op : opcode) (data : string) :
  stepByte s c = (s', op) -> op <> scanError ->
  checkFrom s (String c data) = checkFrom s' data.
Proof. intros H Hop. cbn. rewrite H. destruct op; congruence. Qed.

Lemma readFrom_step (s s' : scanner) (c : ascii) (op : opcode)
    (seen data : string) (fault : option string) :
  stepByte s c = (s', op) ->
  op <> scanEnd -> op <> scanEndObject -> op <> scanEndArray -> op <> scanError ->
  readFrom s seen (String c data) fault = readFrom s' (snoc seen c) data fault.
Proof. intros H N1 N2 N3 N4. cbn. rewrite H. destruct op; congruence. Qed.

Lemma readFrom_scanEnd (s s' : scanner) (c : ascii) (seen data : string)
    (fault : option string) :
  stepByte s c = (s', scanEnd) ->
  readFrom s seen (String c data) fault = Value seen (String c data).
Proof. intros H. cbn. now rewrite H. Qed.

Lemma readFrom_close (s s' : scanner) (c : ascii) (op : opcode)
    (seen data : string) (fault : option string) :
  stepByte s c = (s', op) -> op = scanEndObject \/ op = scanEndArray ->
  (step s' = stateEndTop /\
   readFrom s seen (String c data) fault = Value (snoc seen c) data) \/
  (parseState s' <> [] /\ endTop s' = endTop s /\
   readFrom s seen (String c data) fault = readFrom s' (snoc seen c) data fault).
Proof.
  intros H Hop.
  destruct (stepByte_close _ _ _ _ H Hop) as [[Hnil Htop] | [Hne Het]].
  - left. split; [assumption|]. apply do_stateEndValue_space in Hnil.
    cbn. rewrite H. destruct (do_stateEndValue s' " ") as [s'' op'].
    cbn in Hnil. subst op'. destruct Hop; subst op; reflexivity.
  - right. split; [assumption|]. split; [assumption|].
    cbn. rewrite H, (stepByte_close_inner _ _ _ _ H Hop Hne).
    destruct Hop; subst op; reflexivity.
Qed.

(** The ways a step can go. *)
Lemma opcode_cases (op : opcode) :
  op = scanEnd \/ op = scanError \/ (op = scanEndObject \/ op = scanEndArray) \/
  (op <> scanEnd /\ op <> scanEndObject /\ op <> scanEndArray /\ op <> scanError).
Proof. destruct op; auto; right; right; right; repeat split; discriminate. Qed.

(** [readValue] cuts the input in two. *)
Lemma readFrom_split (s : scanner) (seen data : string) (fault : option string)
    (text rest : string) :
  readFrom s seen data fault = Value text rest ->
  exists t, text = seen ++ t /\ data = t ++ rest.
Proof.
  revert s seen. induction data as [|c data IH]; intros s seen H.
  - cbn in H. destruct fault; [discriminate|].
    destruct (stepByte s " ") as [s' op]; destruct op; try discriminate;
      try (destruct (existsb _ _); discriminate).
    inversion H; subst. exists EmptyString. now rewrite append_nil_r.
  - destruct (stepByte s c) as [s' op] eqn:E.
    destruct (opcode_cases op) as [-> | [-> | [Hop | (N1 & N2 & N3 & N4)]]].
    + rewrite (readFrom_scanEnd _ _ _ _ _ _ E) in H. inversion H; subst.
      exists EmptyString. now rewrite append_nil_r.
    + cbn in H. rewrite E in H. discriminate.
    + destruct (readFrom_close _ _ _ _ seen data fault E Hop)
        as [[_ Hr] | (_ & _ & Hr)]; rewrite Hr in H.
      * inversion H; subst. exists (String c EmptyString). split; reflexivity.
      * apply IH in H as (t & -> & ->). exists (String c t).
        now rewrite snoc_append.
    + rewrite (readFrom_step _ _ _ _ _ _ _ E N1 N2 N3 N4) in H.
      apply IH in H as (t & -> & ->). exists (String c t).
      now rewrite snoc_append.
Qed.

(** Bytes other than white space after the first value: the [Decoder]
    stops before them, [checkValid] rejects the input. *)
Lemma readFrom_trailing (s : scanner) (seen data text rest : string) :
  readFrom s seen data None = Value text rest ->
  existsb (fun c => negb (isSpace c)) rest = true ->
  checkFrom s data <> None.
Proof.
  revert s seen. induction data as [|c data IH]; intros s seen H Hrest.
  - cbn in H. destruct (stepByte s " ") as [s' op]; destruct op; try discriminate;
      try (destruct (existsb _ _); discriminate).
    inversion H; subst. discriminate.
  - destruct (stepByte s c) as [s' op] eqn:E.
    destruct (opcode_cases op) as [-> | [-> | [Hop | (N1 & N2 & N3 & N4)]]].
    + rewrite (readFrom_scanEnd _ _ _ _ _ _ E) in H. inversion H; subst.
      rewrite (checkFrom_step _ _ _ _ _ E) by discriminate. cbn in Hrest.
      destruct (stepByte_scanEnd _ _ _ E) as [[Hc Htop] | (Hc & Herr & Hsome)].
      * rewrite Hc in Hrest. cbn in Hrest.
        intros Hv. apply checkFrom_stateEndTop in Hv; [|assumption].
        apply forallb_not_existsb in Hv. congruence.
      * now apply checkFrom_stateError.
    + cbn in H. rewrite E in H. discriminate.
    + rewrite (checkFrom_step _ _ _ _ _ E) by (destruct Hop; subst; discriminate).
      destruct (readFrom_close _ _ _ _ seen data None E Hop)
        as [[Htop Hr] | (_ & _ & Hr)]; rewrite Hr in H.
      * inversion H; subst.
        intros Hv. apply checkFrom_stateEndTop in Hv; [|assumption].
        apply forallb_not_existsb in Hv. congruence.
      * eapply IH; eassumption.
    + rewrite (checkFrom_step _ _ _ _ _ E N4).
      rewrite (readFrom_step _ _ _ _ _ _ _ E N1 N2 N3 N4) in H.
      eapply IH; eassumption.
Qed.

(** A well-formed input: the [Decoder] finds its value, and only white
    space after it. *)
Lemma readFrom_valid (s : scanner) (seen data : string) :
  endTop s = false -> checkFrom s data = None ->
  exists text rest,
    readFrom s seen data None = Value (seen ++ text) rest /\
    data = text ++ rest /\ forallb isSpace rest = true.
Proof.
  revert s seen. induction data as [|c data IH]; intros s seen Het H.
  - cbn in H. unfold eof in H. destruct (err s); [discriminate|]. rewrite Het in H.
    destruct (endTop (fst (stepByte s " "))) eqn:E; [|discriminate].
    apply stepByte_space_endTop in E; [|assumption].
    exists EmptyString, EmptyString. cbn.
    destruct (stepByte s " ") as [s' op]. cbn in E. subst op.
    now rewrite append_nil_r.
  - destruct (stepByte s c) as [s' op] eqn:E.
    destruct (opcode_cases op) as [-> | [-> | [Hop | (N1 & N2 & N3 & N4)]]].
    + rewrite (checkFrom_step _ _ _ _ _ E) in H by discriminate.
      rewrite (readFrom_scanEnd _ _ _ _ _ _ E).
      exists EmptyString, (String c data). rewrite append_nil_r.
      repeat split. cbn.
      destruct (stepByte_scanEnd _ _ _ E) as [[Hc Htop] | (Hc & Herr & Hsome)].
      * rewrite Hc. cbn. now apply checkFrom_stateEndTop with s'.
      * exfalso. revert H. now apply checkFrom_stateError.
    + cbn in H. rewrite E in H. discriminate.
    + rewrite (checkFrom_step _ _ _ _ _ E) in H
        by (destruct Hop; subst; discriminate).
      destruct (readFrom_close _ _ _ _ seen data None E Hop)
        as [[Htop Hr] | (_ & Het' & Hr)]; rewrite Hr.
      * exists (String c EmptyString), data. repeat split.
        now apply checkFrom_stateEndTop with s'.
      * rewrite Het in Het'.
        destruct (IH s' (snoc seen c) Het' H) as (t & rest & Hr' & -> & Hsp).
        exists (String c t), rest. rewrite Hr', snoc_append. auto.
    + rewrite (checkFrom_step _ _ _ _ _ E N4) in H.
      rewrite (readFrom_step _ _ _ _ _ _ _ E N1 N2 N3 N4).
      assert (Het' : endTop s' = false)
        by (rewrite (stepByte_endTop _ _ _ _ E); assumption).
      destruct (IH s' (snoc seen c) Het' H) as (t & rest & Hr' & -> & Hsp).
      exists (String c t), rest. rewrite Hr', snoc_append. auto.
Qed.

Lemma scanning_step (s s' : scanner) (c : ascii) (op : opcode) :
  scanning s -> stepByte s c = (s', op) ->
  op <> scanEnd -> op <> scanError -> parseState s' <> [] \/
    (op <> scanEndObject /\ op <> scanEndArray) ->
  scanning s'.
Proof.
  intros (Herr & Het & Hst & Hps) H N1 N2 N3.
  destruct s as [st et ps er]. cbn in *. subst er et. unfold_step H.
  destruct st; split_cases H; inversion H; subst; unfold scanning; cbn in *;
    try congruence;
    repeat split; try congruence; try discriminate; try assumption;
    try (destruct N3 as [N3 | [N3 N4]]; congruence).
Qed.

(** A step that ends the value could have been taken at the end of the
    input as well. *)
Lemma scanning_scanEnd (s s' : scanner) (c : ascii) :
  scanning s -> stepByte s c = (s', scanEnd) -> eof s = None.
Proof.
  intros (Herr & Het & Hst & Hps) H. unfold eof. rewrite Herr, Het.
  destruct s as [st et ps er]. cbn in *. subst er et. unfold_step H.
  destruct st; split_cases H; inversion H; subst; cbn in *;
    try reflexivity; try congruence; try (exfalso; now apply Hps).
Qed.

Lemma scanning_close (s s' : scanner) (c : ascii) (op : opcode) :
  scanning s -> stepByte s c = (s', op) ->
  op = scanEndObject \/ op = scanEndArray -> step s' = stateEndTop ->
  eof s' = None.
Proof.
  intros (Herr & Het & Hst & Hps) H Hop Htop. unfold eof.
  destruct s as [st et ps er]. cbn in *. subst er et. unfold_step H.
  destruct st; split_cases H; inversion H; subst; cbn in *;
    try reflexivity; try congruence; try (destruct Hop; discriminate).
Qed.

(** The bytes [readValue] hands on are a well-formed JSON text. *)
Lemma readFrom_text_valid (s : scanner) (seen data t rest : string) :
  scanning s ->
  readFrom s seen data None = Value (seen ++ t) rest ->
  checkFrom s t = None.
Proof.
  revert s seen t. induction data as [|c data IH]; intros s seen t Hs H.
  - cbn in H. destruct (stepByte s " ") as [s' op] eqn:E; destruct op;
      try discriminate; try (destruct (existsb _ _); discriminate).
    inversion H as [Ht]. rewrite <- (append_nil_r seen) in Ht at 1.
    apply String.app_inj in Ht. subst t. cbn.
    eapply scanning_scanEnd; eassumption.
  - destruct (stepByte s c) as [s' op] eqn:E.
    destruct (opcode_cases op) as [-> | [-> | [Hop | (N1 & N2 & N3 & N4)]]].
    + rewrite (readFrom_scanEnd _ _ _ _ _ _ E) in H.
      inversion H as [[Ht Hrest]]. rewrite <- (append_nil_r seen) in Ht at 1.
      apply String.app_inj in Ht. subst t. cbn.
      eapply scanning_scanEnd; eassumption.
    + cbn in H. rewrite E in H. discriminate.
    + assert (Hne : op <> scanError) by (destruct Hop; subst; discriminate).
      assert (Hne' : op <> scanEnd) by (destruct Hop; subst; discriminate).
      destruct (readFrom_close _ _ _ _ seen data None E Hop)
        as [[Htop Hr] | (Hps & _ & Hr)]; rewrite Hr in H.
      * inversion H as [[Ht Hrest]]. unfold snoc in Ht.
        apply String.app_inj in Ht. subst t.
        rewrite (checkFrom_step _ _ _ _ _ E Hne). cbn.
        eapply scanning_close; eauto.
      * destruct (readFrom_split _ _ _ _ _ _ H) as (t' & Ht & _).
        rewrite snoc_append in Ht. apply String.app_inj in Ht. subst t.
        rewrite (checkFrom_step _ _ _ _ _ E Hne).
        eapply IH; [eapply scanning_step; eauto|].
        rewrite snoc_append. exact H.
    + rewrite (readFrom_step _ _ _ _ _ _ _ E N1 N2 N3 N4) in H.
      destruct (readFrom_split _ _ _ _ _ _ H) as (t' & Ht & _).
      rewrite snoc_append in Ht. apply String.app_inj in Ht. subst t.
      rewrite (checkFrom_step _ _ _ _ _ E N4).
      eapply IH; [eapply scanning_step; eauto|].
      rewrite snoc_append. exact H.
Qed.

(** [checkValid] rejects what the [Decoder] leaves unread, unless it is
    white space. *)
Lemma checkValid_trailing (data text rest : string) :
  readValue data None = Value text rest ->
  existsb (fun c => negb (isSpace c)) rest = true ->
  checkValid data <> None.
Proof. apply readFrom_trailing. Qed.

(** On a well-formed input the [Decoder] reads the value and leaves white
    space. *)
Lemma readValue_valid (data : string) :
  checkValid data = None ->
  exists text rest,
    readValue data None = Value text rest /\
    data = text ++ rest /\ forallb isSpace rest = true.
Proof.
  intros H. apply (readFrom_valid reset EmptyString) in H; [|reflexivity].
  exact H.
Qed.

(** What the [Decoder] reads first is a prefix of the input and a
    well-formed JSON text by itself. *)
Lemma readValue_sound (data text rest : string) :
  readValue data None = Value text rest ->
  data = text ++ rest /\ checkValid text = None.
Proof.
  intros H. destruct (readFrom_split _ _ _ _ _ _ H) as (t & Ht & Hd).
  change (text = t) in Ht. subst t. split; [assumption|].
  apply (readFrom_text_valid reset EmptyString data text rest); [|exact H].
  repeat split; discriminate.
Qed.





Lemma existsb_append (p : ascii -> bool) (a b : string) :
  existsb p (a ++ b) = existsb p a || existsb p b.
Proof.
  induction a as [|x a IH]; [reflexivity|].
  rewrite append_cons. cbn. now rewrite IH, orb_assoc.
Qed.

Lemma between_digit (lo c : ascii) :
  (code "0" <= code lo)%N -> between lo "9" c = true -> isDigit c = true.
Proof.
  unfold isDigit, between. intros Hlo [H1 H2]%andb_true_iff.
  apply N.leb_le in H1. rewrite H2, andb_true_r. apply N.leb_le. lia.
Qed.

Lemma eqb_digit (c d : ascii) :
  isDigit d = true -> Ascii.eqb c d = true -> isDigit c = true.
Proof. now intros Hd ->%Ascii.eqb_eq. Qed.

(** A number state is entered, and stayed in, on a digit. *)
Lemma stepByte_inNumber (s s' : scanner) (x : ascii) (op : opcode) :
  stepByte s x = (s', op) -> inNumber (step s') = true -> isDigit x = true.
Proof.
  intros H Hn. destruct s as [st et ps er]. unfold_step H.
  destruct st; split_cases H; inversion H; subst; cbn in *;
    try discriminate; try assumption;
    try (eapply between_digit; [|eassumption]; vm_compute; discriminate);
    try (eapply eqb_digit; [|eassumption]; reflexivity).
Qed.

(** Where a space would end the value, so does any other byte, unless the
    scanner is in a number and the byte goes on with it. *)
Lemma stepByte_space_any (s : scanner) (x : ascii) :
  snd (stepByte s " ") = scanEnd ->
  inNumber (step s) = false \/ continuesNumber x = false ->
  snd (stepByte s x) = scanEnd.
Proof.
  intros H Hx. destruct s as [st et ps er].
  destruct (stepByte _ " ") as [s1 op1] eqn:E1. cbn in H. subst op1.
  destruct (stepByte _ x) as [s2 op2] eqn:E2. cbn.
  assert (Hnum : inNumber st = true -> isDigit x = false /\
            Ascii.eqb x "." = false /\ Ascii.eqb x "e" = false /\
            Ascii.eqb x "E" = false).
  { intros Hst. destruct Hx as [Hx | Hx]; [cbn in Hx; congruence|].
    unfold continuesNumber in Hx. cbn in Hx.
    repeat (apply orb_false_iff in Hx as [? Hx] || apply orb_false_iff in Hx as [Hx ?]).
    auto. }
  unfold_step E1. unfold_step E2.
  destruct st; try discriminate E1;
    try (destruct (Hnum eq_refl) as (Hd & H1 & H2 & H3); rewrite ?Hd, ?H1, ?H2, ?H3 in E2;
         cbn in E2);
    destruct ps; split_cases E1; try discriminate E1;
    split_cases E2; inversion E2; reflexivity.
Qed.

Lemma stopsAt_step (s s' : scanner) (c : ascii) (op : opcode) (text : string)
    (x : ascii) :
  stepByte s c = (s', op) -> stopsAt s (String c text) x -> stopsAt s' text x.
Proof.
  intros E [Hx | Ht]; [now left | right].
  destruct text as [|y text]; [|exact Ht].
  cbn in Ht. destruct (inNumber (step s')) eqn:Hn; [|reflexivity].
  rewrite (stepByte_inNumber _ _ _ _ E Hn) in Ht. discriminate.
Qed.

(** A well-formed text with more after it: the [Decoder] stops at the end
    of the value, before the white space that may follow it in the text. *)
Lemma readFrom_then (s : scanner) (seen text : string) (x : ascii) (rest : string) :
  endTop s = false -> checkFrom s text = None -> stopsAt s text x ->
  exists t ws,
    text = t ++ ws /\ forallb isSpace ws = true /\
    readFrom s seen (text ++ String x rest) None =
      Value (seen ++ t) (ws ++ String x rest).
Proof.
  revert s seen. induction text as [|c text IH]; intros s seen Het H Hstop.
  - cbn in H. unfold eof in H. destruct (err s); [discriminate|]. rewrite Het in H.
    destruct (endTop (fst (stepByte s " "))) eqn:E; [|discriminate].
    apply stepByte_space_endTop in E; [|assumption].
    assert (Hx : snd (stepByte s x) = scanEnd).
    { apply stepByte_space_any; [assumption|]. destruct Hstop; auto. }
    exists EmptyString, EmptyString. rewrite (append_nil_r seen).
    split; [reflexivity|]. split; [reflexivity|].
    change (EmptyString ++ String x rest) with (String x rest).
    destruct (stepByte s x) as [s' op] eqn:E'. cbn in Hx. subst op.
    apply (readFrom_scanEnd _ _ _ _ _ _ E').
  - rewrite append_cons. destruct (stepByte s c) as [s' op] eqn:E.
    pose proof (stopsAt_step _ _ _ _ _ _ E Hstop) as Hstop'.
    destruct (opcode_cases op) as [-> | [-> | [Hop | (N1 & N2 & N3 & N4)]]].
    + rewrite (checkFrom_step _ _ _ _ _ E) in H by discriminate.
      rewrite (readFrom_scanEnd _ _ _ _ _ _ E).
      exists EmptyString, (String c text). rewrite append_nil_r.
      repeat split. cbn.
      destruct (stepByte_scanEnd _ _ _ E) as [[Hc Htop] | (Hc & Herr & Hsome)].
      * rewrite Hc. cbn. now apply checkFrom_stateEndTop with s'.
      * exfalso. revert H. now apply checkFrom_stateError.
    + cbn in H. rewrite E in H. discriminate.
    + rewrite (checkFrom_step _ _ _ _ _ E) in H
        by (destruct Hop; subst; discriminate).
      destruct (readFrom_close _ _ _ _ seen (text ++ String x rest) None E Hop)
        as [[Htop Hr] | (_ & Het' & Hr)]; rewrite Hr.
      * exists (String c EmptyString), text. repeat split.
        now apply checkFrom_stateEndTop with s'.
      * rewrite Het in Het'.
        destruct (IH s' (snoc seen c) Het' H Hstop') as (t & ws & -> & Hsp & Hr').
        exists (String c t), ws. rewrite Hr', snoc_append. auto.
    + rewrite (checkFrom_step _ _ _ _ _ E N4) in H.
      rewrite (readFrom_step _ _ _ _ _ _ _ E N1 N2 N3 N4).
      assert (Het' : endTop s' = false)
        by (rewrite (stepByte_endTop _ _ _ _ E); assumption).
      destruct (IH s' (snoc seen c) Het' H Hstop') as (t & ws & -> & Hsp & Hr').
      exists (String c t), ws. rewrite Hr', snoc_append. auto.
Qed.

Lemma readValue_then (text : string) (x : ascii) (rest : string) :
  checkValid text = None ->
  endsInDigit text = false \/ continuesNumber x = false ->
  exists t ws,
    text = t ++ ws /\ forallb isSpace ws = true /\
    readValue (text ++ String x rest) None = Value t (ws ++ String x rest).
Proof.
  intros Hv Hx.
  apply (readFrom_then reset EmptyString text x rest); [reflexivity | exact Hv |].
  destruct Hx as [Ht | Hx]; [right | now left].
  destruct text; [reflexivity | exact Ht].
Qed.

End json_facts.

(** ** The encoded form *)

Module url_facts.

Import bytes.

Lemma get_forallb (p : ascii -> bool) (s : string) (i : nat) (c : ascii) :
  String.get i s = Some c -> forallb p s = true -> p c = true.
Proof.
  revert i. induction s as [|x s IH]; intros i Hget Hall; [discriminate|].
  cbn in Hall. apply andb_true_iff in Hall as [Hx Hs].
  destruct i; cbn in Hget; [now injection Hget as <- | eauto].
Qed.

Lemma upperhex_alnum (n : N) : isAlnum (url.upperhex n) = true.
Proof.
  unfold url.upperhex.
  destruct (String.get (N.to_nat n) "0123456789ABCDEF") eqn:E; [|reflexivity].
  now apply (get_forallb isAlnum _ _ _ E).
Qed.

Lemma forallb_append (p : ascii -> bool) (a b : string) :
  forallb p (a ++ b) = forallb p a && forallb p b.
Proof.
  induction a as [|x a IH]; [reflexivity|].
  rewrite json_facts.append_cons. cbn. now rewrite IH, andb_assoc.
Qed.

Lemma forallb_impl (p q : ascii -> bool) (s : string) :
  (forall c, p c = true -> q c = true) ->
  forallb p s = true -> forallb q s = true.
Proof.
  intros Hpq. induction s as [|x s IH]; [reflexivity|].
  cbn. intros [Hx Hs]%andb_true_iff. now rewrite (Hpq x Hx), IH.
Qed.

Lemma escapedByte_alnum (c : ascii) : isAlnum c = true -> util.escapedByte c = true.
Proof. unfold util.escapedByte. now intros ->. Qed.

Lemma escapedByte_unreserved (c : ascii) :
  url.shouldEscapeQueryComponent c = false -> util.escapedByte c = true.
Proof.
  unfold url.shouldEscapeQueryComponent, util.escapedByte.
  intros H%negb_false_iff. apply orb_true_iff in H as [-> | H]; [reflexivity|].
  apply orb_true_iff. right. cbn in H |- *.
  repeat (apply orb_true_iff in H as [-> | H];
          [now rewrite ?orb_true_r|]).
  discriminate.
Qed.

Lemma QueryEscape_escapedBytes (s : string) :
  forallb util.escapedByte (url.QueryEscape s) = true.
Proof.
  induction s as [|c s IH]; [reflexivity|].
  cbn [url.QueryEscape]. destruct (Ascii.eqb c " ").
  - cbn [forallb]. now rewrite IH.
  - destruct (url.shouldEscapeQueryComponent c) eqn:E.
    + cbn [forallb].
      rewrite IH, !(escapedByte_alnum _ (upperhex_alnum _)). reflexivity.
    + cbn [forallb]. now rewrite IH, escapedByte_unreserved.
Qed.

Lemma QueryEscape_formBytes (s : string) :
  forallb util.formByte (url.QueryEscape s) = true.
Proof.
  apply (forallb_impl util.escapedByte); [|apply QueryEscape_escapedBytes].
  unfold util.formByte. now intros c ->.
Qed.

Lemma concat_bytes (p : ascii -> bool) (sep : string) (l : list string) :
  forallb p sep = true -> Forall (fun x => forallb p x = true) l ->
  forallb p (String.concat sep l) = true.
Proof.
  intros Hsep Hall. induction Hall as [|x l Hx Hl IH]; [reflexivity|].
  cbn. destruct l as [|y l]; [assumption|].
  rewrite !forallb_append, Hx, Hsep. exact IH.
Qed.

(** *** Escaping can be undone *)

(** One byte through [QueryEscape] and back through the two loops of
    [unescape]. *)
Lemma unescape_step (c : ascii) (s : string) :
  url.badEscape (url.QueryEscape (String c s)) = url.badEscape (url.QueryEscape s) /\
  url.unescaped (url.QueryEscape (String c s)) =
    String c (url.unescaped (url.QueryEscape s)).
Proof.
  destruct c as [[] [] [] [] [] [] [] []]; split; reflexivity.
Qed.

Lemma badEscape_QueryEscape (s : string) : url.badEscape (url.QueryEscape s) = None.
Proof.
  induction s as [|c s IH]; [reflexivity|].
  now rewrite (proj1 (unescape_step c s)).
Qed.

Lemma unescaped_QueryEscape (s : string) : url.unescaped (url.QueryEscape s) = s.
Proof.
  induction s as [|c s IH]; [reflexivity|].
  now rewrite (proj2 (unescape_step c s)), IH.
Qed.

(** The shortcut of [unescape]: nothing to undo without [%] and [+]. *)
Lemma unescaped_plain (t : string) :
  existsb (fun c => Ascii.eqb c "%" || Ascii.eqb c "+") t = false ->
  url.unescaped t = t.
Proof.
  induction t as [|c t IH]; [reflexivity|].
  cbn [existsb url.unescaped].
  intros [[Hp Hq]%orb_false_iff Ht]%orb_false_iff.
  now rewrite Hp, Hq, IH.
Qed.

Lemma QueryUnescape_QueryEscape (s : string) :
  url.QueryUnescape (url.QueryEscape s) = inr s.
Proof.
  unfold url.QueryUnescape. rewrite badEscape_QueryEscape.
  destruct (existsb _ _) eqn:E.
  - now rewrite unescaped_QueryEscape.
  - rewrite <- (unescaped_plain _ E). now rewrite unescaped_QueryEscape.
Qed.

(** *** The pieces of an encoded form *)

(** The parameters as [Values.Encode] goes through them: key by key in
    sorted order, the values of a key in their order. *)
Lemma encodedPairs_flat (v : url.Values) (keys : list string) :
  flat_map
    (fun k => map (fun x => url.QueryEscape k ++ "=" ++ url.QueryEscape x)
                  (default [] (v !! k))) keys =
  map (fun kv => url.QueryEscape (fst kv) ++ "=" ++ url.QueryEscape (snd kv))
      (flat_map (fun k => map (pair k) (default [] (v !! k))) keys).
Proof.
  induction keys as [|k keys IH]; [reflexivity|].
  cbn [flat_map]. rewrite map_app, IH, map_map. reflexivity.
Qed.

Lemma keys_of_flat (f : string -> list string) (keys : list string) (k : string) :
  In k (map fst (flat_map (fun k => map (pair k) (f k)) keys)) -> In k keys.
Proof.
  induction keys as [|k' keys IH]; cbn [flat_map]; [easy|].
  rewrite map_app, map_map. cbn [fst]. intros [Hin | Hin]%in_app_or.
  - apply in_map_iff in Hin as (x & -> & _). now left.
  - right. now apply IH.
Qed.

Lemma sorted_flat (f : string -> list string) (keys : list string) :
  StronglySorted String.le keys ->
  StronglySorted String.le (map fst (flat_map (fun k => map (pair k) (f k)) keys)).
Proof.
  induction 1 as [|k keys Hsorted IH Hk]; [constructor|].
  cbn [flat_map]. rewrite map_app, map_map. cbn [fst].
  induction (f k) as [|x xs IHx]; [exact IH|].
  cbn [map app]. constructor; [exact IHx|].
  apply List.Forall_forall. intros y [Hy | Hy]%in_app_or.
  - apply in_map_iff in Hy as (z & -> & _). reflexivity.
  - apply keys_of_flat in Hy. rewrite List.Forall_forall in Hk. now apply Hk.
Qed.

Lemma filter_other_key (k k' : string) (xs : list string) :
  k' <> k ->
  List.filter (fun kv : string * string => String.eqb (fst kv) k) (map (pair k') xs) = [].
Proof.
  intros Hne. induction xs as [|x xs IH]; [reflexivity|].
  cbn. apply String.eqb_neq in Hne. now rewrite Hne.
Qed.

Lemma filter_same_key (k : string) (xs : list string) :
  List.filter (fun kv : string * string => String.eqb (fst kv) k) (map (pair k) xs) =
  map (pair k) xs.
Proof.
  induction xs as [|x xs IH]; [reflexivity|].
  cbn. now rewrite String.eqb_refl, IH.
Qed.

Lemma values_of_flat (f : string -> list string) (keys : list string) (k : string) :
  NoDup keys ->
  ((k ∈ keys) ->
   map snd (List.filter (fun kv : string * string => String.eqb (fst kv) k)
              (flat_map (fun k => map (pair k) (f k)) keys)) = f k) /\
  ((k ∉ keys) ->
   List.filter (fun kv : string * string => String.eqb (fst kv) k)
     (flat_map (fun k => map (pair k) (f k)) keys) = []).
Proof.
  induction 1 as [|k' keys Hnotin Hnd [IHin IHout]]; cbn [flat_map].
  - split; [intros H; inversion H | reflexivity].
  - rewrite List.filter_app. split.
    + intros [-> | Hin]%elem_of_cons.
      * rewrite filter_same_key, (IHout Hnotin), app_nil_r, map_map.
        cbn [snd]. apply map_id.
      * rewrite filter_other_key by (intros ->; contradiction).
        now apply IHin.
    + intros [Hne Hout]%not_elem_of_cons.
      rewrite filter_other_key by congruence. now apply IHout.
Qed.

(** [Values.Encode] writes the parameters, nothing else, key by key in
    ascending order. *)
Lemma Encode_pairs (v : url.Values) :
  exists pairs : list (string * string),
    url.Encode v =
      String.concat "&"
        (map (fun kv => url.QueryEscape (fst kv) ++ "=" ++ url.QueryEscape (snd kv))
             pairs) /\
    StronglySorted String.le (map fst pairs) /\
    forall k,
      map snd (List.filter (fun kv => String.eqb (fst kv) k) pairs) =
      default [] (v !! k).
Proof.
  exists (flat_map (fun k => map (pair k) (default [] (v !! k))) (url.sortedKeys v)).
  assert (Hperm : url.sortedKeys v ≡ₚ map fst (map_to_list v))
    by apply merge_sort_Permutation.
  split; [|split].
  - unfold url.Encode, url.encodedPairs. now rewrite encodedPairs_flat.
  - apply sorted_flat. apply StronglySorted_merge_sort; apply _.
  - intros k.
    assert (Hnd : NoDup (url.sortedKeys v))
      by (rewrite Hperm; apply NoDup_fst_map_to_list).
    destruct (values_of_flat (fun k => default [] (v !! k)) (url.sortedKeys v) k Hnd)
      as (Hin & Hout).
    cbn beta in Hin. destruct (v !! k) as [xs|] eqn:Hk.
    + apply Hin. rewrite Hperm.
      apply list_elem_of_fmap. exists (k, xs). split; [reflexivity|].
      now apply elem_of_map_to_list.
    + rewrite Hout; [reflexivity|]. rewrite Hperm.
      intros Hin'. apply list_elem_of_fmap in Hin' as ([k' xs] & -> & Hin').
      apply elem_of_map_to_list in Hin'. cbn in Hk. congruence.
Qed.

(** What [QueryEscape] and [Values.Encode] write is made of letters,
    digits and [-_.~+%], with [=] and [&] between the escaped pieces of a
    form: whatever bytes the keys and values hold, the encoded text has no
    space, no control byte and no byte from 0x80 on, and [=] and [&] occur
    in it as separators only. *)
Theorem encoded_form_bytes :
  (forall s, forallb util.escapedByte (url.QueryEscape s) = true) /\
  (forall v, forallb util.formByte (url.EncodeNilable v) = true) /\
  (forall c, util.escapedByte c = true -> oneOf "=&" c = false) /\
  (forall c, util.formByte c = true -> (32 < code c < 127)%N).
Proof.
  split; [exact QueryEscape_escapedBytes|]. split; [|split].
  - intros [v|]; [|reflexivity]. cbn [url.EncodeNilable]. unfold url.Encode.
    apply concat_bytes; [reflexivity|]. unfold url.encodedPairs.
    apply Forall_forall. intros x Hx. apply list_elem_of_In in Hx.
    apply in_flat_map in Hx as (k & _ & Hx). apply in_map_iff in Hx as (y & <- & _).
    rewrite !forallb_append, !QueryEscape_formBytes. reflexivity.
  - intros c. destruct c as [[] [] [] [] [] [] [] []]; vm_compute;
      intros H; first [reflexivity | discriminate H].
  - intros c. destruct c as [[] [] [] [] [] [] [] []]; vm_compute;
      intros H; first [discriminate H | split; reflexivity].
Qed.

End url_facts.


(** ** The helpers *)

Module util_facts.

Import bytes util.

Section facts.

Context {D : Type} {UD : json.Unmarshaler D} {U : url.Impl} {N : http.Net}
  {B : Type} {MB : json.Marshaler B}.

Ltac unfold_helpers :=
  unfold run, invoke, PostForm, GetWithCustomHeaders, PostFormWithHeaders,
    PostJSONWithAuth, HTTPGet, newRequest, doRequest,
    http_NewRequestWithContext, client_Do, Body_Close, io_ReadAll,
    Decoder_Decode, json_Unmarshal, check, orReturn, defer, bind, ret, fail,
    emit, http.zeroClient in *;
  cbn [log result fst snd app http.data http.fault http.Do String.eqb] in *.

(** Splits on an innermost [match] or [if] of the goal. *)
Ltac split_goal :=
  match goal with
  | |- context [match ?x with _ => _ end] =>
      lazymatch x with
      | context [match _ with _ => _ end] => fail
      | _ => destruct x eqn:?
      end
  end;
  cbn [log result fst snd app http.data http.fault http.Do String.eqb] in *.

(** The cases of [ev ∈ l] for a list [l] that is written out. *)
Ltac log_cases Hin :=
  repeat match type of Hin with
  | _ ∈ [] => apply elem_of_nil in Hin; contradiction
  | _ ∈ _ :: _ =>
      apply elem_of_cons in Hin; destruct Hin as [Hin | Hin];
      [try discriminate Hin|]
  end.

(** Once the client has answered, the call goes the way [settle] says. *)
Lemma run_settle (c : call B) (d : D) (req : http.Request) (resp : http.Response) :
  answered (snd (run c d)) req resp ->
  exists pre,
    (forall r x, EDo r x ∉ pre) /\ (EClose ∉ pre) /\
    (EDecode ∉ pre) /\ (EUnmarshal ∉ pre) /\
    run c d =
      (fst (fst (settle (treatmentOf c) resp d)),
       State (pre ++ (EDo req (inr resp) :: snd (fst (settle (treatmentOf c) resp d))))
             (snd (settle (treatmentOf c) resp d))).
Proof.
  unfold answered.
  destruct c; unfold_helpers; repeat split_goal; intros Hin;
    log_cases Hin; injection Hin as -> ->.
  all: unfold settle, treatmentOf;
    repeat match goal with
    | E : negb _ = true |- _ => apply negb_true_iff in E
    | E : negb _ = false |- _ => apply negb_false_iff in E
    end;
    repeat match goal with
    | E : (_ =? _)%Z = _ |- _ => rewrite E; clear E
    | E : json.Decode _ _ _ = _ |- _ => rewrite E; clear E
    | E : json.Unmarshal _ _ = _ |- _ => rewrite E; clear E
    | E : http.fault _ = _ |- _ => rewrite E; clear E
    end;
    cbn [fst snd decoded];
    match goal with |- context [ENewRequest ?m ?u] => exists [ENewRequest m u] end;
    repeat split; try reflexivity; intros; set_unfold; intuition discriminate.
Qed.

(** Whatever the treatment, the events after the answer end with the one
    [Close], and the destination is touched by the decoding step only. *)
Lemma settle_events (t : treatment) (resp : http.Response) (d : D) :
  exists mid, snd (fst (settle t resp d)) = (mid ++ [EClose])%list /\ (EClose ∉ mid).
Proof.
  unfold settle. destruct t; repeat split_goal;
    first [ exists []; split; [reflexivity | set_unfold; intuition discriminate]
          | exists [EDecode]; split; [reflexivity | set_unfold; intuition discriminate]
          | exists [EReadAll]; split; [reflexivity | set_unfold; intuition discriminate]
          | exists [EReadAll; EUnmarshal]; split; [reflexivity | set_unfold; intuition discriminate] ].
Qed.

Lemma settle_nonOK (t : treatment) (resp : http.Response) (d : D) :
  http.StatusCode resp <> http.StatusOK ->
  settle t resp d =
    match t with
    | viaDoRequest =>
        (inl (UnexpectedStatus (http.StatusCode resp) None), [EClose], d)
    | bodyInError =>
        (inl (UnexpectedStatus (http.StatusCode resp)
                (Some (http.data (http.Body resp)))), [EReadAll; EClose], d)
    | readAllFirst =>
        match http.fault (http.Body resp) with
        | Some e => (inl (ReadBodyError e), [EReadAll; EClose], d)
        | None =>
            (inl (UnexpectedStatus (http.StatusCode resp)
                    (Some (http.data (http.Body resp)))), [EReadAll; EClose], d)
        end
    end.
Proof.
  intros Hcode%Z.eqb_neq. unfold settle. rewrite Hcode. reflexivity.
Qed.

Lemma settle_OK (t : treatment) (resp : http.Response) (d : D) :
  http.StatusCode resp = http.StatusOK ->
  http.fault (http.Body resp) = None ->
  settle t resp d =
    match t with
    | readAllFirst =>
        (decoded (snd (json.Unmarshal (http.data (http.Body resp)) d)),
         [EReadAll; EUnmarshal; EClose],
         fst (json.Unmarshal (http.data (http.Body resp)) d))
    | _ =>
        (decoded (snd (json.Decode (http.data (http.Body resp)) None d)),
         [EDecode; EClose],
         fst (json.Decode (http.data (http.Body resp)) None d))
    end.
Proof.
  intros Hcode Hfault. unfold settle. rewrite Hcode, Hfault. cbn.
  destruct t; [destruct (json.Decode _ _ _) .. | destruct (json.Unmarshal _ _)];
    reflexivity.
Qed.

Lemma not_elem_of_log (ev : event) (pre : list event) (req : http.Request)
    (a : string + http.Response) (evs : list event) :
  ev ∉ pre -> ev <> EDo req a -> ev ∉ evs ->
  ev ∉ (pre ++ (EDo req a :: evs))%list.
Proof.
  intros Hpre Hev Hevs [Hin | Hin%elem_of_cons]%elem_of_app; [auto|].
  destruct Hin; auto.
Qed.

(** *** Status check *)

(** C1, as amended.  Whatever the entry point, after a response whose
    status is not 200 the destination holds what it held, neither decoding
    step has run, and the error returned is [UnexpectedStatus] with that
    status; save that [HTTPGet], which reads the body before it looks at the
    status, returns the read error when reading the body fails. *)
Theorem non_ok_status_is_rejected (c : call B) (d : D) (req : http.Request)
    (resp : http.Response) :
  answered (snd (run c d)) req resp ->
  http.StatusCode resp <> http.StatusOK ->
  result (snd (run c d)) = d /\
  (EDecode ∉ log (snd (run c d))) /\
  (EUnmarshal ∉ log (snd (run c d))) /\
  match takesClient c, http.fault (http.Body resp) with
  | false, Some e => fst (run c d) = inl (ReadBodyError e)
  | _, _ => isUnexpectedStatus (fst (run c d)) (http.StatusCode resp)
  end.
Proof.
  intros Hans Hcode.
  destruct (run_settle c d req resp Hans) as (pre & HDo & HClose & HDec & HUnm & Hrun).
  rewrite Hrun, (settle_nonOK _ _ _ Hcode). unfold isUnexpectedStatus.
  destruct c; cbn [treatmentOf takesClient fst snd log result];
    try destruct (http.fault (http.Body resp));
    cbn [fst snd log result];
    repeat split; eauto;
    (apply not_elem_of_log; [assumption | discriminate |]);
    set_unfold; intuition discriminate.
Qed.

(** C3, as amended.  On a response whose status is not 200, [PostForm]
    (through [doRequest]) returns an error with the status alone; the
    functions with custom headers and the one with authorization put the
    body text, as read, into the error; and so does [HTTPGet] when the body
    could be read. *)
Theorem status_error_body (c : call B) (d : D) (req : http.Request)
    (resp : http.Response) :
  answered (snd (run c d)) req resp ->
  http.StatusCode resp <> http.StatusOK ->
  match c with
  | CallPostForm _ _ _ _ =>
      fst (run c d) = inl (UnexpectedStatus (http.StatusCode resp) None)
  | CallHTTPGet _ _ =>
      http.fault (http.Body resp) = None ->
      fst (run c d) =
        inl (UnexpectedStatus (http.StatusCode resp)
               (Some (http.data (http.Body resp))))
  | _ =>
      fst (run c d) =
        inl (UnexpectedStatus (http.StatusCode resp)
               (Some (http.data (http.Body resp))))
  end.
Proof.
  intros Hans Hcode.
  destruct (run_settle c d req resp Hans) as (pre & _ & _ & _ & _ & Hrun).
  rewrite Hrun, (settle_nonOK _ _ _ Hcode).
  destruct c; cbn [treatmentOf fst snd]; try reflexivity.
  intros ->. reflexivity.
Qed.

(** *** Decoding *)


(** C10, as amended.  The decoding step of [HTTPGet] differs from that of
    the other four.  Take a response with status 200 whose body, read in
    full, is a well-formed JSON text [text] and more bytes after it, not
    all of them white space, which cannot be read as part of the value:
    [text] does not end in a digit, or the first of the bytes is none a
    number goes on with.  Then the functions that take a client return what
    decoding [text] alone returns (nil, if the value fits the destination)
    and leave in the destination what that leaves, and [HTTPGet] returns a
    [DecodeError], the destination untouched. *)
Theorem trailing_bytes_tell_the_decoders_apart (c : call B) (d : D)
    (req : http.Request) (resp : http.Response) (text : string) (x : ascii)
    (rest : string) :
  json.ignoresTrailingSpace D ->
  answered (snd (run c d)) req resp ->
  http.StatusCode resp = http.StatusOK ->
  http.fault (http.Body resp) = None ->
  http.data (http.Body resp) = text ++ String x rest ->
  json.checkValid text = None ->
  existsb (fun b => negb (json.isSpace b)) (String x rest) = true ->
  json.endsInDigit text = false \/ json.continuesNumber x = false ->
  if takesClient c
  then fst (run c d) = decoded (snd (json.unmarshal text d)) /\
       result (snd (run c d)) = fst (json.unmarshal text d) /\
       (forall d', json.unmarshal text d = (d', None) ->
                   fst (run c d) = inr tt /\ result (snd (run c d)) = d')
  else isDecodeError (fst (run c d)) /\ result (snd (run c d)) = d.
Proof.
  intros Hlaw Hans Hcode Hfault Hdata Hvalid Hrest Hstop.
  destruct (json_facts.readValue_then text x rest Hvalid Hstop)
    as (t & ws & Htext & Hws & Hread).
  assert (Ht : json.unmarshal text d = json.unmarshal t d)
    by (rewrite Htext; now apply Hlaw).
  assert (Hbad : json.checkValid (text ++ String x rest) <> None).
  { apply (json_facts.checkValid_trailing _ _ _ Hread).
    rewrite json_facts.existsb_append, Hrest. apply orb_true_r. }
  destruct (run_settle c d req resp Hans) as (pre & _ & _ & _ & _ & Hrun).
  rewrite Hrun, (settle_OK _ _ _ Hcode Hfault), Hdata, Ht.
  destruct c; cbn [treatmentOf takesClient fst snd log result];
    unfold json.Decode, json.Unmarshal; try rewrite Hread;
    try (split; [reflexivity|]; split; [reflexivity|];
         intros d' ->; split; reflexivity).
  destruct (json.checkValid (text ++ String x rest)); [|congruence].
  split; [eexists; reflexivity | reflexivity].
Qed.

(** *** Closing the body *)

(** C8.  Once the client has answered with a response, the log of the call
    ends with the closing of the response body, and the body is closed that
    once: whatever the status, whether decoding succeeds or fails. *)
Theorem body_is_closed (c : call B) (d : D) (req : http.Request)
    (resp : http.Response) :
  answered (snd (run c d)) req resp ->
  exists pre mid,
    log (snd (run c d)) = (pre ++ (EDo req (inr resp) :: (mid ++ [EClose])))%list /\
    (EClose ∉ pre) /\ (EClose ∉ mid).
Proof.
  intros Hans.
  destruct (run_settle c d req resp Hans) as (pre & _ & HClose & _ & _ & Hrun).
  destruct (settle_events (treatmentOf c) resp d) as (mid & Hmid & Hno).
  exists pre, mid. rewrite Hrun. cbn [snd log]. rewrite Hmid. auto.
Qed.

(** *** Building the request *)

Lemma NewRequestWithContext_inr (ctx : http.Context) (method url : string)
    (body : option string) (req : http.Request) :
  http.NewRequestWithContext ctx method url body = inr req ->
  http.Header req = ∅ /\ http.ReqBody req = body.
Proof.
  unfold http.NewRequestWithContext. intros Hreq.
  destruct (negb _); [discriminate|]. destruct ctx; [discriminate|].
  destruct (url.Parse url); [discriminate|].
  injection Hreq as <-. split; reflexivity.
Qed.

Lemma setHeaders_ReqBody (headers : list (string * string)) (req : http.Request) :
  http.ReqBody (setHeaders headers req) = http.ReqBody req.
Proof.
  revert req. induction headers as [|[k v] headers IH]; intros req; [reflexivity|].
  cbn. unfold setHeaders in IH. now rewrite IH.
Qed.

(** A name no caller header canonicalises to keeps the value it had. *)
Lemma setHeaders_other (headers : list (string * string)) (req : http.Request)
    (name : string) :
  (forall k v, (k, v) ∈ headers -> http.CanonicalMIMEHeaderKey k <> name) ->
  http.Header (setHeaders headers req) !! name = http.Header req !! name.
Proof.
  revert req. induction headers as [|[k v] headers IH]; intros req Hno; [reflexivity|].
  cbn. unfold setHeaders in IH. rewrite IH.
  - cbn. unfold http.Header_Set. apply lookup_insert_ne.
    apply (Hno k v). left.
  - intros k' v' Hin. apply (Hno k' v'). now right.
Qed.

(** A caller header whose canonical name no other caller header shares
    ends up in the request, whatever was set under that name before. *)
Lemma setHeaders_sets (headers : list (string * string)) (req : http.Request)
    (k v : string) :
  (k, v) ∈ headers ->
  (forall k' v', (k', v') ∈ headers ->
     http.CanonicalMIMEHeaderKey k' = http.CanonicalMIMEHeaderKey k ->
     (k', v') = (k, v)) ->
  http.Header (setHeaders headers req) !! http.CanonicalMIMEHeaderKey k = Some [v].
Proof.
  revert req. induction headers as [|[k0 v0] headers IH]; intros req Hin Huniq.
  - now apply elem_of_nil in Hin.
  - cbn. fold (setHeaders headers (http.Request_SetHeader k0 v0 req)).
    destruct (decide ((k, v) ∈ headers)) as [Hin' | Hout].
    + apply IH; [assumption|].
      intros k' v' H1 H2. apply Huniq; [now right | assumption].
    + apply elem_of_cons in Hin as [Heq | ?]; [|contradiction].
      injection Heq as <- <-.
      rewrite setHeaders_other.
      * cbn. unfold http.Header_Set. apply lookup_insert_eq.
      * intros k' v' H1 H2. apply Hout.
        rewrite <- (Huniq k' v'); [assumption | now right | assumption].
Qed.

(** [PostForm] announces the form it sends. *)
Lemma PostForm_sets_content_type (ctx : http.Context) (client : http.Client)
    (endpoint : string) (form : url.Values) (d : D) (req : http.Request)
    (answer : string + http.Response) :
  EDo req answer ∈ log (snd (run (CallPostForm ctx client endpoint (Some form)) d)) ->
  http.ReqBody req = Some (url.Encode form) /\
  http.Header req !! "Content-Type" = Some ["application/x-www-form-urlencoded"].
Proof.
  unfold_helpers. repeat split_goal; intros Hin; log_cases Hin;
    injection Hin as -> _;
    match goal with
    | E : http.NewRequestWithContext _ _ _ _ = inr _ |- _ =>
        apply NewRequestWithContext_inr in E as [Hh Hb]
    end;
    cbn; rewrite ?Hh, ?Hb; (split; [reflexivity|]);
    unfold http.Header_Set; apply lookup_insert_eq.
Qed.

(** C4, where the code goes wrong.  [PostFormWithHeaders] sends the encoded
    form as the body of the request, and no [Content-Type] header unless
    the caller supplies one: the header [newRequest] sets for a form is
    never set here. *)
Theorem PostFormWithHeaders_sets_no_content_type (ctx : http.Context)
    (client : http.Client) (url : string) (form : option url.Values)
    (headers : list (string * string)) (d : D) (req : http.Request)
    (answer : string + http.Response) :
  EDo req answer ∈
    log (snd (run (CallPostFormWithHeaders ctx client url form headers) d)) ->
  (forall k v, (k, v) ∈ headers -> http.CanonicalMIMEHeaderKey k <> "Content-Type") ->
  http.ReqBody req = Some (url.EncodeNilable form) /\
  http.Header req !! "Content-Type" = None.
Proof.
  unfold_helpers. repeat split_goal; intros Hin Hno; log_cases Hin;
    injection Hin as -> _;
    match goal with
    | E : http.NewRequestWithContext _ _ _ _ = inr _ |- _ =>
        apply NewRequestWithContext_inr in E as [Hh Hb]
    end;
    (split; [now rewrite setHeaders_ReqBody
            | rewrite setHeaders_other by assumption; now rewrite Hh]).
Qed.

(** What the caller supplies under [Content-Type] is what
    [PostFormWithHeaders] sends. *)
Lemma PostFormWithHeaders_sends_caller_header (ctx : http.Context)
    (client : http.Client) (url : string) (form : option url.Values)
    (headers : list (string * string)) (d : D) (req : http.Request)
    (answer : string + http.Response) (k v : string) :
  EDo req answer ∈
    log (snd (run (CallPostFormWithHeaders ctx client url form headers) d)) ->
  (k, v) ∈ headers ->
  (forall k' v', (k', v') ∈ headers ->
     http.CanonicalMIMEHeaderKey k' = http.CanonicalMIMEHeaderKey k ->
     (k', v') = (k, v)) ->
  http.Header req !! http.CanonicalMIMEHeaderKey k = Some [v].
Proof.
  unfold_helpers. repeat split_goal; intros Hin Hk Huniq; log_cases Hin;
    injection Hin as -> _; now apply setHeaders_sets.
Qed.

(** C5.  When [json.Marshal] fails on the body, [PostJSONWithAuth] returns
    the [EncodeError] at once: the state is the one it started in, so no
    request was built and the client was not called. *)
Theorem marshal_failure_precedes_all (ctx : http.Context) (client : http.Client)
    (endpoint : string) (body : B) (token : string) (e : string) (s : state D) :
  json.Marshal body = inl e ->
  PostJSONWithAuth ctx client endpoint body token s = (inl (EncodeError e), s).
Proof.
  intros Hm. unfold PostJSONWithAuth, bind, orReturn. rewrite Hm. reflexivity.
Qed.

(** C6.  When [url.Parse] rejects the endpoint, [PostForm] returns
    [InvalidEndpoint] at once: the state is the one it started in, so the
    client was not called. *)
Theorem unparseable_endpoint_precedes_all (ctx : http.Context)
    (client : http.Client) (endpoint : string) (form : option url.Values)
    (e : string) (s : state D) :
  url.Parse endpoint = inl e ->
  PostForm ctx client endpoint form s = (inl (InvalidEndpoint e), s).
Proof.
  intros Hp. unfold PostForm, newRequest, bind, orReturn. rewrite Hp. reflexivity.
Qed.

(** C7, as amended.  With query parameters given, [newRequest] asks for the
    request at the endpoint with its raw query replaced by the encoded
    parameters: two endpoints that parse to the same URL but for the raw
    query give the same request.  The encoded parameters are the pieces
    [key=value] joined by [&], one piece for each value of each key, the
    keys in ascending order and the values of a key in their own order,
    with key and value percent-encoded: written in letters, digits and
    [-_.~+%] alone, so that [=] and [&] are separators only, and such that
    [QueryUnescape] gives back the key or value. *)
Theorem query_replaces_raw_query (ctx : http.Context) (method endpoint : string)
    (query : url.Values) (form : option url.Values) (token : string)
    (u : url.URL) (s : state D) :
  url.Parse endpoint = inr u ->
  log (snd (newRequest ctx method endpoint (Some query) form token s)) =
    (log s ++ [ENewRequest method
                 (url.String_ (url.setRawQuery (url.Encode query) u))])%list /\
  (forall endpoint' u',
     url.Parse endpoint' = inr u' ->
     url.setRawQuery EmptyString u' = url.setRawQuery EmptyString u ->
     newRequest ctx method endpoint' (Some query) form token s =
     newRequest ctx method endpoint (Some query) form token s) /\
  (exists pairs : list (string * string),
     url.Encode query =
       String.concat "&"
         (map (fun kv => url.QueryEscape (fst kv) ++ "=" ++ url.QueryEscape (snd kv))
              pairs) /\
     StronglySorted String.le (map fst pairs) /\
     forall k,
       map snd (List.filter (fun kv => String.eqb (fst kv) k) pairs) =
       default [] (query !! k)) /\
  (forall x,
     forallb escapedByte (url.QueryEscape x) = true /\
     url.QueryUnescape (url.QueryEscape x) = inr x).
Proof.
  intros Hp. split; [|split; [|split]].
  - unfold newRequest, bind, orReturn. rewrite Hp. cbn.
    destruct form; unfold_helpers; repeat split_goal; reflexivity.
  - intros endpoint' u' Hp' Hsame.
    assert (Hq : url.setRawQuery (url.Encode query) u' =
                 url.setRawQuery (url.Encode query) u).
    { destruct u, u'. unfold url.setRawQuery in *. cbn in *. congruence. }
    unfold newRequest, bind, orReturn. rewrite Hp, Hp'. cbn. now rewrite Hq.
  - apply url_facts.Encode_pairs.
  - intros x. split.
    + apply url_facts.QueryEscape_escapedBytes.
    + apply url_facts.QueryUnescape_QueryEscape.
Qed.


(** *** The course of a call *)

(** A call runs in a straight line: it stops before a request is built, or
    with the request refused, or with the transport failing, or it goes on
    with the response the way [settle] says. *)
Lemma run_cases (c : call B) (d : D) :
  (log (snd (run c d)) = [] /\ result (snd (run c d)) = d /\
   ((exists e, fst (run c d) = inl (InvalidEndpoint e)) \/
    (exists e, fst (run c d) = inl (EncodeError e)))) \/
  (exists u e,
     log (snd (run c d)) = [ENewRequest (methodOf c) u] /\
     result (snd (run c d)) = d /\
     fst (run c d) = inl (RequestConstructionError e)) \/
  (exists u req e,
     log (snd (run c d)) = [ENewRequest (methodOf c) u; EDo req (inl e)] /\
     result (snd (run c d)) = d /\
     fst (run c d) = inl (TransportError e)) \/
  (exists u req resp,
     run c d =
       (fst (fst (settle (treatmentOf c) resp d)),
        State (ENewRequest (methodOf c) u :: EDo req (inr resp)
                 :: snd (fst (settle (treatmentOf c) resp d)))
              (snd (settle (treatmentOf c) resp d)))).
Proof.
  destruct c; unfold_helpers; repeat split_goal; cbn [methodOf];
    first
      [ left; repeat split; eauto; fail
      | right; left; do 2 eexists; repeat split; reflexivity
      | right; right; left; do 3 eexists; repeat split; reflexivity
      | right; right; right; do 3 eexists;
        unfold settle, treatmentOf;
        repeat match goal with
        | E : negb _ = true |- _ => apply negb_true_iff in E
        | E : negb _ = false |- _ => apply negb_false_iff in E
        end;
        repeat match goal with
        | E : (_ =? _)%Z = _ |- _ => rewrite E; clear E
        | E : json.Decode _ _ _ = _ |- _ => rewrite E; clear E
        | E : json.Unmarshal _ _ = _ |- _ => rewrite E; clear E
        | E : http.fault _ = _ |- _ => rewrite E; clear E
        end;
        cbn [fst snd decoded]; reflexivity ].
Qed.

(** After the answer, every event is about the response body. *)
Lemma settle_touches (t : treatment) (resp : http.Response) (d : D) :
  Forall (fun ev => touchesBody ev = true) (snd (fst (settle t resp d))).
Proof.
  unfold settle. destruct t; repeat split_goal; repeat constructor.
Qed.

Lemma touchesBody_elem (ev : event) (t : treatment) (resp : http.Response) (d : D) :
  ev ∈ snd (fst (settle t resp d)) -> touchesBody ev = true.
Proof.
  intros Hin. pose proof (settle_touches t resp d) as Hall.
  rewrite Forall_forall in Hall. now apply Hall.
Qed.

(** [http.NewRequestWithContext] for the two methods the helpers use. *)
Lemma NewRequestWithContext_known (ctx : http.Context) (method url : string)
    (body : option string) :
  method = http.MethodGet \/ method = http.MethodPost ->
  http.NewRequestWithContext ctx method url body =
    match ctx with
    | http.NilContext => inl "net/http: nil Context"
    | http.Ctx _ =>
        match url.Parse url with
        | inl e => inl e
        | inr u =>
            inr {| http.ctx := ctx; http.Method := method;
                   http.URL := url.setHost (http.removeEmptyPort (url.Host u)) u;
                   http.Header := ∅; http.ReqBody := body;
                   http.Host :=
                     url.Host (url.setHost (http.removeEmptyPort (url.Host u)) u) |}
        end
    end.
Proof. intros [-> | ->]; reflexivity. Qed.

Lemma setHeaders_Method (headers : list (string * string)) (req : http.Request) :
  http.Method (setHeaders headers req) = http.Method req.
Proof.
  revert req. induction headers as [|[k v] headers IH]; intros req; [reflexivity|].
  cbn. unfold setHeaders in IH. now rewrite IH.
Qed.

Lemma setHeaders_ctx (headers : list (string * string)) (req : http.Request) :
  http.ctx (setHeaders headers req) = http.ctx req.
Proof.
  revert req. induction headers as [|[k v] headers IH]; intros req; [reflexivity|].
  cbn. unfold setHeaders in IH. now rewrite IH.
Qed.

Lemma setHeaders_URL (headers : list (string * string)) (req : http.Request) :
  http.URL (setHeaders headers req) = http.URL req.
Proof.
  revert req. induction headers as [|[k v] headers IH]; intros req; [reflexivity|].
  cbn. unfold setHeaders in IH. now rewrite IH.
Qed.

(** No retry, no second request: in the log of a call there is at most the
    building of one request and at most one call of the client, and the
    client is called right after the request is built, never before. *)
Theorem one_request_one_round_trip (c : call B) (d : D) :
  (length (List.filter isNewRequest (log (snd (run c d)))) <= 1)%nat /\
  (length (List.filter isDo (log (snd (run c d)))) <= 1)%nat /\
  (forall i req a,
     log (snd (run c d)) !! i = Some (EDo req a) ->
     i = 1%nat /\
     exists u, log (snd (run c d)) !! 0%nat = Some (ENewRequest (methodOf c) u)).
Proof.
  assert (Hnone : forall t resp p,
            (forall ev, touchesBody ev = true -> p ev = false) ->
            List.filter p (snd (fst (settle t resp d))) = []).
  { intros t resp p Hp. pose proof (settle_touches t resp d) as Hall.
    induction Hall as [|ev evs Hev _ IH]; [reflexivity|].
    cbn. now rewrite (Hp ev Hev). }
  destruct (run_cases c d)
    as [(Hlog & _) | [(u & e & Hlog & _) | [(u & req & e & Hlog & _)
       | (u & req & resp & Hrun)]]];
    try rewrite Hrun; cbn [snd log]; try rewrite Hlog.
  - split; [cbn; lia | split; [cbn; lia|]].
    intros i req a Hi. destruct i; discriminate.
  - split; [cbn; lia | split; [cbn; lia|]].
    intros [|[|i]] req a Hi; discriminate.
  - split; [cbn; lia | split; [cbn; lia|]].
    intros [|[|i]] req' a Hi; try discriminate. eauto.
  - cbn [List.filter isNewRequest isDo length].
    split; [|split].
    + rewrite Hnone; [cbn; lia|]. now intros [].
    + rewrite Hnone; [cbn; lia|]. now intros [].
    + intros [|[|i]] req' a Hi; try discriminate; [eauto|].
      cbn in Hi. apply list_elem_of_lookup_2 in Hi.
      apply touchesBody_elem in Hi. discriminate.
Qed.

(** When the client returns an error the call returns it as a
    [TransportError]; nothing was read, decoded or closed (there is no
    response body), and the destination holds what it held. *)
Theorem transport_failure_is_returned (c : call B) (d : D) (req : http.Request)
    (e : string) :
  EDo req (inl e) ∈ log (snd (run c d)) ->
  fst (run c d) = inl (TransportError e) /\
  result (snd (run c d)) = d /\
  exists u, log (snd (run c d)) = [ENewRequest (methodOf c) u; EDo req (inl e)].
Proof.
  destruct (run_cases c d)
    as [(Hlog & _) | [(u & e' & Hlog & _) | [(u & req' & e' & Hlog & Hres & Hout)
       | (u & req' & resp & Hrun)]]];
    try rewrite Hrun; cbn [fst snd log result]; try rewrite Hlog; intros Hin.
  - now apply elem_of_nil in Hin.
  - log_cases Hin.
  - log_cases Hin. injection Hin as -> ->. eauto.
  - apply elem_of_cons in Hin as [Hin | Hin]; [discriminate|].
    apply elem_of_cons in Hin as [Hin | Hin]; [discriminate|].
    apply touchesBody_elem in Hin. discriminate.
Qed.

Lemma settle_nil (t : treatment) (resp : http.Response) (d : D) :
  fst (fst (settle t resp d)) = inr tt ->
  http.StatusCode resp = http.StatusOK /\
  match t with
  | readAllFirst =>
      http.fault (http.Body resp) = None /\
      json.Unmarshal (http.data (http.Body resp)) d
        = (snd (settle t resp d), None) /\
      snd (fst (settle t resp d)) = [EReadAll; EUnmarshal; EClose]
  | _ =>
      json.Decode (http.data (http.Body resp)) (http.fault (http.Body resp)) d
        = (snd (settle t resp d), None) /\
      snd (fst (settle t resp d)) = [EDecode; EClose]
  end.
Proof.
  unfold settle. destruct t; repeat split_goal; cbn; intros Hnil;
    try discriminate;
    match goal with
    | o : option string |- _ => destruct o; [discriminate Hnil|]
    end;
    repeat match goal with
    | E : (_ =? _)%Z = true |- _ => apply Z.eqb_eq in E
    end;
    auto.
Qed.

(** [nil] is returned only at the end of the whole line: the request was
    built, the client answered with status 200, the body was decoded
    without error into the destination, and the body was closed last.  The
    events of a call that returns [nil] are these and no others. *)
Theorem nil_only_after_200 (c : call B) (d : D) :
  fst (run c d) = inr tt ->
  exists u req resp,
    http.StatusCode resp = http.StatusOK /\
    log (snd (run c d)) =
      ENewRequest (methodOf c) u :: EDo req (inr resp)
        :: (if takesClient c then [EDecode; EClose]
            else [EReadAll; EUnmarshal; EClose]) /\
    (if takesClient c
     then json.Decode (http.data (http.Body resp)) (http.fault (http.Body resp)) d
     else json.Unmarshal (http.data (http.Body resp)) d)
      = (result (snd (run c d)), None).
Proof.
  destruct (run_cases c d)
    as [(_ & _ & [[e He] | [e He]]) | [(u & e & _ & _ & He)
       | [(u & req & e & _ & _ & He) | (u & req & resp & Hrun)]]];
    try (rewrite He; discriminate).
  rewrite Hrun. cbn [fst snd log result]. intros Hnil.
  apply settle_nil in Hnil as [Hcode Hrest].
  exists u, req, resp. split; [assumption|].
  destruct c; cbn [treatmentOf takesClient] in *;
    first [ destruct Hrest as (_ & Hdec & Hev) | destruct Hrest as (Hdec & Hev) ];
    rewrite Hev; auto.
Qed.

(** With a nil context no entry point gets as far as the client: the request
    constructor refuses, unless the endpoint of [PostForm] or the body of
    [PostJSONWithAuth] was refused before. *)
Theorem nil_context_never_sends (c : call B) (d : D) :
  callCtx c = http.NilContext ->
  (forall req a, EDo req a ∉ log (snd (run c d))) /\
  result (snd (run c d)) = d /\
  (fst (run c d) = inl (RequestConstructionError "net/http: nil Context") \/
   (exists e, fst (run c d) = inl (InvalidEndpoint e)) \/
   (exists e, fst (run c d) = inl (EncodeError e))).
Proof.
  intros Hctx. destruct c; cbn in Hctx; subst ctx; unfold_helpers;
    repeat split_goal;
    try match goal with
    | E : http.NewRequestWithContext http.NilContext _ _ _ = _ |- _ =>
        rewrite NewRequestWithContext_known in E
          by (unfold http.MethodGet, http.MethodPost; auto);
        first [discriminate E | injection E as <-]
    end;
    cbn;
    (split; [intros req' a Hin; log_cases Hin | split; [reflexivity | eauto]]).
Qed.

(** A URL that [url.Parse] refuses: the four functions that hand it to the
    request constructor as it is return a [RequestConstructionError] (where
    [PostForm] returns [InvalidEndpoint]); the client is not called. *)
Theorem unparseable_url_is_a_construction_error (c : call B) (d : D) (e : string)
    (done : bool) :
  treatmentOf c <> viaDoRequest ->
  callCtx c = http.Ctx done ->
  url.Parse (callURL c) = inl e ->
  (forall e', fst (run c d) <> inl (EncodeError e')) ->
  fst (run c d) = inl (RequestConstructionError e) /\
  log (snd (run c d)) = [ENewRequest (methodOf c) (callURL c)] /\
  result (snd (run c d)) = d.
Proof.
  intros Hform Hctx Hparse Hmarshal.
  destruct c; cbn in Hform, Hctx, Hparse; subst ctx; try congruence;
    unfold_helpers;
    rewrite ?NewRequestWithContext_known in *
      by (unfold http.MethodGet, http.MethodPost; auto);
    rewrite ?Hparse in *; cbn in *; auto.
  destruct (json.Marshal body) as [e'|jsonBody] eqn:Hm; cbn in *.
  - exfalso. now apply (Hmarshal e').
  - rewrite NewRequestWithContext_known
      by (unfold http.MethodGet, http.MethodPost; auto).
    rewrite Hparse. cbn. auto.
Qed.

(** [HTTPGet] and a body that cannot be read to the end: whatever the
    status, 200 included, the call returns the read error; the body is not
    parsed, the destination holds what it held, the body is closed. *)
Theorem HTTPGet_unreadable_body (c : call B) (d : D) (req : http.Request)
    (resp : http.Response) (e : string) :
  answered (snd (run c d)) req resp ->
  takesClient c = false ->
  http.fault (http.Body resp) = Some e ->
  fst (run c d) = inl (ReadBodyError e) /\
  result (snd (run c d)) = d /\
  exists u,
    log (snd (run c d)) =
      [ENewRequest (methodOf c) u; EDo req (inr resp); EReadAll; EClose].
Proof.
  intros Hans Hc Hfault.
  destruct (run_settle c d req resp Hans) as (pre & _ & _ & _ & _ & Hrun).
  destruct c; try discriminate. clear Hrun.
  destruct (run_cases (CallHTTPGet ctx url) d)
    as [(Hlog & _) | [(u & e' & Hlog & _) | [(u & req' & e' & Hlog & _)
       | (u & req' & resp' & Hrun)]]];
    unfold answered in Hans;
    try (rewrite Hlog in Hans; log_cases Hans; fail).
  rewrite Hrun in Hans |- *. cbn [fst snd log result] in *.
  assert (req' = req /\ resp' = resp) as [-> ->].
  { apply elem_of_cons in Hans as [Hin | Hin]; [discriminate|].
    apply elem_of_cons in Hin as [Hin | Hin]; [now injection Hin as -> ->|].
    apply touchesBody_elem in Hin. discriminate. }
  unfold settle, treatmentOf. rewrite Hfault. cbn. eauto.
Qed.

(** Which error comes from where: [InvalidEndpoint] from [PostForm] alone,
    [EncodeError] from [PostJSONWithAuth] alone, the read error from
    [HTTPGet] alone; the status error without a body text from [PostForm]
    alone, the one with a body text from the other four. *)
Theorem errors_by_entry_point (c : call B) (d : D) :
  match fst (run c d) with
  | inl (InvalidEndpoint _) => treatmentOf c = viaDoRequest
  | inl (EncodeError _) => sendsJSON c = true
  | inl (ReadBodyError _) => takesClient c = false
  | inl (UnexpectedStatus _ None) => treatmentOf c = viaDoRequest
  | inl (UnexpectedStatus _ (Some _)) => treatmentOf c <> viaDoRequest
  | _ => True
  end.
Proof.
  destruct c; unfold_helpers; repeat split_goal; cbn; auto; discriminate.
Qed.

(** *** The request that is sent *)

(** What [http.NewRequestWithContext] returns for the two methods the
    helpers use. *)
Lemma NewRequestWithContext_built (ctx : http.Context) (method url : string)
    (body : option string) (req : http.Request) :
  method = http.MethodGet \/ method = http.MethodPost ->
  http.NewRequestWithContext ctx method url body = inr req ->
  http.ctx req = ctx /\ http.Method req = method /\
  http.Header req = ∅ /\ http.ReqBody req = body.
Proof.
  intros Hm Hreq. rewrite (NewRequestWithContext_known _ _ _ _ Hm) in Hreq.
  destruct ctx; [discriminate|]. destruct (url.Parse url); [discriminate|].
  injection Hreq as <-. repeat split.
Qed.

Ltac built :=
  match goal with
  | E : http.NewRequestWithContext _ _ _ _ = inr _ |- _ =>
      apply NewRequestWithContext_built in E as (Hctx & Hmethod & Hheader & Hbody);
      [|unfold http.MethodGet, http.MethodPost; auto]
  end.

(** Every request that reaches the client carries the caller's context and
    the method of its entry point: POST for the three posting functions, GET
    for the two getting ones. *)
Theorem sent_request_method_and_context (c : call B) (d : D) (req : http.Request)
    (a : string + http.Response) :
  EDo req a ∈ log (snd (run c d)) ->
  http.Method req = methodOf c /\ http.ctx req = callCtx c.
Proof.
  destruct c; unfold_helpers; repeat split_goal; intros Hin; log_cases Hin;
    injection Hin as -> _; built; cbn;
    rewrite ?setHeaders_Method, ?setHeaders_ctx; auto.
Qed.

(** The two getting functions send no body, and [HTTPGet] no header
    either. *)
Theorem get_requests_are_bare (c : call B) (d : D) (req : http.Request)
    (a : string + http.Response) :
  EDo req a ∈ log (snd (run c d)) ->
  methodOf c = http.MethodGet ->
  http.ReqBody req = None /\
  (takesClient c = false -> http.Header req = ∅).
Proof.
  destruct c; unfold_helpers; repeat split_goal; intros Hin Hm;
    try discriminate Hm; log_cases Hin; injection Hin as -> _; built;
    rewrite ?setHeaders_ReqBody; split; auto; discriminate.
Qed.

(** The request [PostJSONWithAuth] sends: the marshalled value for its
    body, and the two headers [Content-Type: application/json] and
    [Authorization], no others. *)
Theorem PostJSONWithAuth_request (ctx : http.Context) (client : http.Client)
    (endpoint : string) (body : B) (token : string) (d : D)
    (req : http.Request) (a : string + http.Response) :
  EDo req a ∈
    log (snd (run (CallPostJSONWithAuth ctx client endpoint body token) d)) ->
  exists jsonBody,
    json.Marshal body = inr jsonBody /\
    http.ReqBody req = Some jsonBody /\
    http.Header req =
      <["Authorization" := ["Bearer " ++ token]]>
        (<["Content-Type" := ["application/json"]]> ∅).
Proof.
  unfold_helpers. repeat split_goal; intros Hin; log_cases Hin;
    injection Hin as -> _; built; cbn; rewrite Hbody, Hheader;
    eexists; repeat split; reflexivity.
Qed.

(** The request [PostForm] sends: with a form, the encoded form for its
    body and the one header [Content-Type]; with the nil form, no body and
    no header. *)
Theorem PostForm_request (ctx : http.Context) (client : http.Client)
    (endpoint : string) (form : option url.Values) (d : D)
    (req : http.Request) (a : string + http.Response) :
  EDo req a ∈ log (snd (run (CallPostForm ctx client endpoint form) d)) ->
  http.ReqBody req = url.Encode <$> form /\
  http.Header req =
    match form with
    | Some _ => <["Content-Type" := ["application/x-www-form-urlencoded"]]> ∅
    | None => ∅
    end.
Proof.
  unfold_helpers. repeat split_goal; intros Hin; log_cases Hin;
    injection Hin as -> _; built; cbn; rewrite ?Hbody, ?Hheader;
    split; reflexivity.
Qed.

(** *** Caller headers *)

Lemma Request_SetHeader_commute (k1 v1 k2 v2 : string) (req : http.Request) :
  http.CanonicalMIMEHeaderKey k1 <> http.CanonicalMIMEHeaderKey k2 ->
  http.Request_SetHeader k1 v1 (http.Request_SetHeader k2 v2 req) =
  http.Request_SetHeader k2 v2 (http.Request_SetHeader k1 v1 req).
Proof.
  intros Hne. unfold http.Request_SetHeader, http.Header_Set. cbn.
  f_equal. now apply insert_insert_ne.
Qed.

(** The order in which the [range] loop meets the entries of the map makes
    no difference, as long as no two keys are spellings of one header
    name. *)
Lemma setHeaders_Permutation (hs hs' : list (string * string)) (req : http.Request) :
  hs ≡ₚ hs' -> NoDup (map canonicalName hs) ->
  setHeaders hs req = setHeaders hs' req.
Proof.
  intros Hperm. revert req.
  induction Hperm as [|[k v] l l' Hperm IH|[k1 v1] [k2 v2] l|l l' l'' H1 IH1 H2 IH2];
    intros req Hnd.
  - reflexivity.
  - cbn in *. apply NoDup_cons in Hnd as [_ Hnd].
    unfold setHeaders in IH. now apply IH.
  - cbn in *. f_equal. apply Request_SetHeader_commute.
    apply NoDup_cons in Hnd as [Hnotin _]. unfold canonicalName in Hnotin.
    cbn in Hnotin. intros Heq. apply Hnotin. rewrite Heq. left.
  - rewrite IH1 by assumption. apply IH2.
    assert (Hmap : map canonicalName l ≡ₚ map canonicalName l')
      by now apply Permutation_map.
    now rewrite <- Hmap.
Qed.

(** So the two functions with custom headers do the same whatever that
    order is. *)
Theorem header_order_is_irrelevant (ctx : http.Context) (client : http.Client)
    (url : string) (form : option url.Values) (hs hs' : list (string * string))
    (d : D) :
  hs ≡ₚ hs' -> NoDup (map canonicalName hs) ->
  run (CallGetWithCustomHeaders ctx client url hs) d =
    run (CallGetWithCustomHeaders ctx client url hs') d /\
  run (CallPostFormWithHeaders ctx client url form hs) d =
    run (CallPostFormWithHeaders ctx client url form hs') d.
Proof.
  intros Hperm Hnd.
  split; unfold run, invoke, GetWithCustomHeaders, PostFormWithHeaders, bind;
    cbn; destruct (http.NewRequestWithContext _ _ _ _) as [e|req]; cbn;
    try reflexivity;
    now rewrite (setHeaders_Permutation hs hs' req Hperm Hnd).
Qed.

Lemma setHeaders_app (hs hs' : list (string * string)) (req : http.Request) :
  setHeaders (hs ++ hs') req = setHeaders hs' (setHeaders hs req).
Proof. unfold setHeaders. apply fold_left_app. Qed.

(** Of two caller keys that are spellings of one header name, the one the
    loop meets last is the one that is sent: what the loop meets last
    always ends up in the request. *)
Theorem last_header_wins (c : call B) (d : D) (hs : list (string * string))
    (k v : string) (req : http.Request) (a : string + http.Response) :
  headersOf c = Some (hs ++ [(k, v)])%list ->
  EDo req a ∈ log (snd (run c d)) ->
  http.Header req !! http.CanonicalMIMEHeaderKey k = Some [v].
Proof.
  destruct c; cbn; intros Hh; try discriminate; injection Hh as ->;
    unfold_helpers; repeat split_goal; intros Hin; log_cases Hin;
    injection Hin as -> _; rewrite setHeaders_app; cbn;
    unfold http.Header_Set; apply lookup_insert_eq.
Qed.

(** The headers of the request are the caller's and no others: a name no
    caller key canonicalises to is absent, and a caller header whose
    canonical name no other caller key shares is sent with its value. *)
Theorem caller_headers_and_no_others (c : call B) (d : D)
    (headers : list (string * string)) (req : http.Request)
    (a : string + http.Response) :
  headersOf c = Some headers ->
  EDo req a ∈ log (snd (run c d)) ->
  (forall name,
     (forall kv, kv ∈ headers -> canonicalName kv <> name) ->
     http.Header req !! name = None) /\
  (forall k v,
     (k, v) ∈ headers ->
     (forall kv, kv ∈ headers -> canonicalName kv = canonicalName (k, v) ->
        kv = (k, v)) ->
     http.Header req !! http.CanonicalMIMEHeaderKey k = Some [v]).
Proof.
  destruct c; cbn; intros Hh; try discriminate; injection Hh as ->;
    unfold_helpers; repeat split_goal; intros Hin; log_cases Hin;
    injection Hin as -> _; built.
  all: split;
    [ intros name Hno; rewrite setHeaders_other, Hheader;
      [apply lookup_empty | intros k v Hkv; apply (Hno (k, v) Hkv)]
    | intros k v Hkv Huniq; apply setHeaders_sets; [assumption|];
      intros k' v' Hkv' Heq; now apply (Huniq (k', v')) ].
Qed.

(** *** Decoding, the failing side *)

(** A response with status 200 in which the decoder finds no complete JSON
    value (for [HTTPGet]: whose body, read in full, is not one JSON value)
    is a [DecodeError], and the destination holds what it held: nothing is
    stored before the text has been scanned. *)
Theorem malformed_body_leaves_destination (c : call B) (d : D)
    (req : http.Request) (resp : http.Response) :
  answered (snd (run c d)) req resp ->
  http.StatusCode resp = http.StatusOK ->
  (if takesClient c
   then forall text rest,
          json.readValue (http.data (http.Body resp)) (http.fault (http.Body resp))
            <> json.Value text rest
   else http.fault (http.Body resp) = None /\
        json.checkValid (http.data (http.Body resp)) <> None) ->
  isDecodeError (fst (run c d)) /\ result (snd (run c d)) = d.
Proof.
  intros Hans Hcode Hbad.
  destruct (run_settle c d req resp Hans) as (pre & _ & _ & _ & _ & Hrun).
  rewrite Hrun. unfold settle, isDecodeError. rewrite Hcode. cbn.
  destruct c; cbn [treatmentOf takesClient fst snd log result] in *;
    unfold json.Decode, json.Unmarshal;
    try (destruct (json.readValue _ _) as [text rest | e | e] eqn:Hr;
         [exfalso; now apply (Hbad text rest) | cbn; eauto ..]).
  destruct Hbad as [-> Hbad].
  destruct (json.checkValid _); [cbn; eauto | congruence].
Qed.


(** *** The request builder by itself *)

(** [newRequest] does no I/O: it leaves the destination alone and adds to
    the log at most the building of the one request, for the method it was
    given. *)
Theorem newRequest_is_pure_construction (ctx : http.Context)
    (method endpoint : string) (query form : option url.Values) (token : string)
    (s : state D) :
  result (snd (newRequest ctx method endpoint query form token s)) = result s /\
  (log (snd (newRequest ctx method endpoint query form token s)) = log s \/
   exists u,
     log (snd (newRequest ctx method endpoint query form token s)) =
       (log s ++ [ENewRequest method u])%list).
Proof.
  unfold_helpers. repeat split_goal; split; eauto.
Qed.

(** What a request [newRequest] returns looks like: the caller's context
    (not nil) and method ([GET] for the empty one, a token in any case), the
    encoded form for its body if a form is given, [Content-Type] if a form
    is given, [Authorization] if the token is not empty, and no other
    header.  It was asked for once, for the endpoint as parsed and written
    out again, with the encoded query in place of its own if a query is
    given. *)
Theorem newRequest_result (ctx : http.Context) (method endpoint : string)
    (query form : option url.Values) (token : string) (s s' : state D)
    (req : http.Request) :
  newRequest ctx method endpoint query form token s = (inr req, s') ->
  ctx <> http.NilContext /\ http.ctx req = ctx /\
  http.Method req = (if String.eqb method EmptyString then "GET" else method) /\
  http.validMethod (http.Method req) = true /\
  http.ReqBody req = url.Encode <$> form /\
  http.Header req =
    (let base :=
       match form with
       | Some _ => <["Content-Type" := ["application/x-www-form-urlencoded"]]> ∅
       | None => ∅
       end in
     if String.eqb token EmptyString then base
     else <["Authorization" := ["Bearer " ++ token]]> base) /\
  exists u,
    url.Parse endpoint = inr u /\
    s' = State (log s ++
                [ENewRequest method
                   (url.String_ match query with
                                | Some q => url.setRawQuery (url.Encode q) u
                                | None => u
                                end)])
               (result s).
Proof.
  unfold_helpers. repeat split_goal; intros Hreq; try discriminate;
    injection Hreq as <- <-;
    match goal with
    | E : http.NewRequestWithContext _ _ _ _ = inr _ |- _ =>
        unfold http.NewRequestWithContext in E;
        destruct (negb (http.validMethod _)) eqn:Hvalid; [discriminate E|];
        apply negb_false_iff in Hvalid;
        destruct ctx; [discriminate E|];
        destruct (url.Parse (url.String_ _)); [discriminate E|];
        injection E as <-
    end;
    cbn; repeat split; try discriminate; try assumption; eauto;
    repeat match goal with
    | E : String.eqb _ _ = _ |- _ => try rewrite E; clear E
    end;
    reflexivity.
Qed.

(** *** The entry points against each other *)

(** A caller who passes the form's content type to [PostFormWithHeaders]
    gets the request [PostForm] would send: same method, same body, same
    headers. *)
Theorem PostFormWithHeaders_like_PostForm (ctx : http.Context)
    (client client' : http.Client) (endpoint url : string) (form : url.Values)
    (d d' : D) (req req' : http.Request) (a a' : string + http.Response) :
  EDo req a ∈ log (snd (run (CallPostForm ctx client endpoint (Some form)) d)) ->
  EDo req' a' ∈
    log (snd (run (CallPostFormWithHeaders ctx client' url (Some form)
                     [("Content-Type", "application/x-www-form-urlencoded")]) d')) ->
  http.Method req' = http.Method req /\
  http.ReqBody req' = http.ReqBody req /\
  http.Header req' = http.Header req.
Proof.
  intros Hform Hwith.
  assert (Hreq : http.Method req = http.MethodPost /\
                 http.ReqBody req = Some (url.Encode form) /\
                 http.Header req =
                   <["Content-Type" := ["application/x-www-form-urlencoded"]]> ∅).
  { revert Hform. clear. unfold_helpers. repeat split_goal; intros Hin;
      log_cases Hin; injection Hin as -> _; built; cbn;
      rewrite Hmethod, Hbody, Hheader; repeat split; reflexivity. }
  assert (Hreq' : http.Method req' = http.MethodPost /\
                  http.ReqBody req' = Some (url.Encode form) /\
                  http.Header req' =
                    <["Content-Type" := ["application/x-www-form-urlencoded"]]> ∅).
  { revert Hwith. clear. unfold_helpers. repeat split_goal; intros Hin;
      log_cases Hin; injection Hin as -> _; built; cbn;
      rewrite Hmethod, Hbody, Hheader; repeat split; reflexivity. }
  destruct Hreq as (-> & -> & ->), Hreq' as (-> & -> & ->). repeat split.
Qed.

(** [HTTPGet] against [GetWithCustomHeaders] with no headers and the zero
    client: as long as the body is read in full and, with status 200, is
    well-formed JSON, the two return the same error and leave the same
    value in the destination.  (C10 is where they part.) *)
Theorem HTTPGet_like_GetWithCustomHeaders (ctx : http.Context) (url : string)
    (d : D) :
  json.ignoresTrailingSpace D ->
  (forall req resp,
     answered (snd (run (CallHTTPGet ctx url) d)) req resp ->
     http.fault (http.Body resp) = None /\
     (http.StatusCode resp <> http.StatusOK \/
      json.checkValid (http.data (http.Body resp)) = None)) ->
  fst (run (CallGetWithCustomHeaders ctx http.zeroClient url []) d) =
    fst (run (CallHTTPGet ctx url) d) /\
  result (snd (run (CallGetWithCustomHeaders ctx http.zeroClient url []) d)) =
    result (snd (run (CallHTTPGet ctx url) d)).
Proof.
  intros Hlaw. unfold answered. unfold_helpers. cbn [setHeaders fold_left].
  repeat split_goal; intros Hok; try (split; reflexivity).
  all: destruct (Hok _ _ ltac:(repeat first [apply list_elem_of_here
                                           | apply list_elem_of_further]))
         as [Hf Hv]; try congruence.
  all: destruct Hv as [Hv | Hv];
    [ exfalso; apply Hv; apply Z.eqb_eq;
      match goal with
      | E : negb (_ =? _)%Z = false |- _ => now apply negb_false_iff in E
      end |].
  all: destruct (json_facts.readValue_valid _ Hv) as (text & rest & Hr & Hb & Hsp).
  all: repeat match goal with
       | E : json.Decode _ _ _ = _ |- _ =>
           unfold json.Decode in E; rewrite ?Hf, Hr in E
       | E : json.Unmarshal _ _ = _ |- _ =>
           unfold json.Unmarshal in E; rewrite Hv, Hb, Hlaw in E by assumption
       end.
  all: split; congruence.
Qed.

End facts.

End util_facts.

(** ** The helpers at work *)

Module examples.

Import bytes util.

Import sample.

Lemma skipSpace_append (text ws : string) :
  forallb json.isSpace ws = true ->
  skipSpace (text ++ ws) =
    match skipSpace text with
    | EmptyString => EmptyString
    | String c s' => String c s' ++ ws
    end.
Proof.
  intros Hws. induction text as [|c text IH].
  - change (EmptyString ++ ws) with ws. cbn.
    induction ws as [|x ws IHws]; [reflexivity|].
    cbn in Hws |- *. apply andb_true_iff in Hws as [-> Hws]. auto.
  - rewrite json_facts.append_cons. cbn. destruct (json.isSpace c); auto.
Qed.

(** The [*bool] destination decodes as the law asks. *)
Lemma boolDestination_ignoresTrailingSpace :
  @json.ignoresTrailingSpace bool boolDestination.
Proof.
  intros text ws v Hws. cbn. unfold unmarshalBool.
  rewrite skipSpace_append by assumption.
  destruct (skipSpace text); reflexivity.
Qed.

Ltac in_log :=
  unfold answered; vm_compute;
  repeat first [apply list_elem_of_here | apply list_elem_of_further].

(** *** C1 *)

Lemma non_ok_status_witness :
  result (snd (runOn (network (inr overloaded)) getStatus false)) = false /\
  (EDecode ∉ log (snd (runOn (network (inr overloaded)) getStatus false))) /\
  (EUnmarshal ∉ log (snd (runOn (network (inr overloaded)) getStatus false))) /\
  isUnexpectedStatus (fst (runOn (network (inr overloaded)) getStatus false)) 503.
Proof.
  apply (@util_facts.non_ok_status_is_rejected bool boolDestination
           plainURL (network (inr overloaded)) payload payloadMarshaler
           getStatus false (requestTo "GET" EmptyString ∅ None) overloaded).
  - in_log.
  - discriminate.
Defined.

(** [HTTPGet] and a response with status 503 whose body cannot be read to
    the end: the error is the read error, not [UnexpectedStatus]. *)
Lemma HTTPGet_read_failure_hides_status :
  answered (snd (runOn (network (inr cutShort)) getStatus false))
    (requestTo "GET" EmptyString ∅ None) cutShort /\
  http.StatusCode cutShort <> http.StatusOK /\
  fst (runOn (network (inr cutShort)) getStatus false) =
    inl (ReadBodyError "unexpected EOF") /\
  ~ isUnexpectedStatus (fst (runOn (network (inr cutShort)) getStatus false)) 503.
Proof.
  split; [in_log|]. split; [discriminate|]. split; [reflexivity|].
  intros [snippet Hs]. discriminate Hs.
Qed.

(** *** C2 *)



(** *** C3 *)

Lemma status_error_body_witness :
  fst (runOn (network (inr overloaded)) getStatus false) =
    inl (UnexpectedStatus 503 (Some "overloaded")).
Proof.
  refine (@util_facts.status_error_body bool boolDestination plainURL
            (network (inr overloaded)) payload payloadMarshaler getStatus false
            (requestTo "GET" EmptyString ∅ None) overloaded _ _ _).
  - in_log.
  - discriminate.
  - reflexivity.
Defined.

(** [HTTPGet], a plain variant, and a response with status 503: the body
    text is in the error, which is not the error with the status alone. *)
Lemma HTTPGet_error_carries_body :
  answered (snd (runOn (network (inr overloaded)) getStatus false))
    (requestTo "GET" EmptyString ∅ None) overloaded /\
  http.StatusCode overloaded <> http.StatusOK /\
  fst (runOn (network (inr overloaded)) getStatus false) =
    inl (UnexpectedStatus 503 (Some "overloaded")) /\
  fst (runOn (network (inr overloaded)) getStatus false) <>
    inl (UnexpectedStatus 503 None).
Proof.
  split; [in_log|]. split; [discriminate|]. split; [reflexivity | discriminate].
Qed.

(** *** C4 *)

Lemma PostFormWithHeaders_bare_witness :
  http.ReqBody (requestTo "POST" EmptyString ∅ (Some "a=1")) = Some "a=1" /\
  http.Header (requestTo "POST" EmptyString ∅ (Some "a=1")) !! "Content-Type" = None.
Proof.
  refine (@util_facts.PostFormWithHeaders_sets_no_content_type bool
            boolDestination plainURL offline payload payloadMarshaler
            background (answering (inr saysTrue)) "http://h/p" (Some aForm) []
            false (requestTo "POST" EmptyString ∅ (Some "a=1")) (inr saysTrue) _ _).
  - in_log.
  - intros k v Hin. now apply elem_of_nil in Hin.
Defined.

(** *** C5 *)

Lemma marshal_failure_witness :
  @PostJSONWithAuth bool boolDestination plainURL payload payloadMarshaler
     background (answering (inr saysTrue)) "http://h/p" Channel "tok123" start =
  (inl (EncodeError "json: unsupported type: chan int"), start).
Proof.
  apply (@util_facts.marshal_failure_precedes_all bool boolDestination plainURL
           payload payloadMarshaler).
  reflexivity.
Defined.

(** *** C6 *)

Lemma unparseable_endpoint_witness :
  @PostForm bool boolDestination plainURL
     background (answering (inr saysTrue)) ":8080/p" (Some aForm) start =
  (inl (InvalidEndpoint "missing protocol scheme"), start).
Proof.
  apply (@util_facts.unparseable_endpoint_precedes_all bool boolDestination
           plainURL).
  reflexivity.
Defined.

(** *** C7 *)

Lemma query_replaces_witness :
  log (snd (@newRequest bool plainURL background "POST" "http://h/p?x=1"
              (Some someQuery) None EmptyString start)) =
  [ENewRequest "POST" "http://h/p?B=3&a=1%262&b=x+y&b=z"].
Proof.
  refine (proj1 (@util_facts.query_replaces_raw_query bool plainURL
            background "POST" "http://h/p?x=1" someQuery None EmptyString
            (http.URL (requestTo "POST" "x=1" ∅ None)) start _)).
  reflexivity.
Defined.

(** [newRequest] for an endpoint with a query string of its own and one
    query parameter: the request is for the parameter alone, the query
    string of the endpoint is gone. *)
Lemma newRequest_drops_endpoint_query :
  url.Parse (Impl := plainURL) "http://h/p?x=1" =
    inr (http.URL (requestTo "POST" "x=1" ∅ None)) /\
  @newRequest bool plainURL background "POST" "http://h/p?x=1"
    (Some aForm) None EmptyString start =
  (inr (requestTo "POST" "a=1" ∅ None),
   State [ENewRequest "POST" "http://h/p?a=1"] false).
Proof. split; vm_compute; reflexivity. Qed.

(** *** C8 *)

Lemma body_is_closed_witness :
  exists pre mid,
    log (snd (runOn offline (postFormTo overloaded) false)) =
      (pre ++ (EDo (requestTo "POST" EmptyString formHeader (Some "a=1"))
                 (inr overloaded) :: (mid ++ [EClose])))%list /\
    (EClose ∉ pre) /\ (EClose ∉ mid).
Proof.
  apply (@util_facts.body_is_closed bool boolDestination plainURL offline
           payload payloadMarshaler (postFormTo overloaded) false).
  in_log.
Defined.

(** *** C9 *)


(** *** C10 *)

Lemma trailing_bytes_witness :
  (fst (runOn offline (postFormTo saysTrueAndMore) false) = inr tt /\
   result (snd (runOn offline (postFormTo saysTrueAndMore) false)) = true) /\
  (isDecodeError (fst (runOn (network (inr saysTrueAndMore)) getStatus false)) /\
   result (snd (runOn (network (inr saysTrueAndMore)) getStatus false)) = false) /\
  (fst (runOn offline (postFormTo saysTrueThenOne) false) = inr tt /\
   result (snd (runOn offline (postFormTo saysTrueThenOne) false)) = true) /\
  (isDecodeError (fst (runOn (network (inr saysTrueThenOne)) getStatus false)) /\
   result (snd (runOn (network (inr saysTrueThenOne)) getStatus false)) = false).
Proof.
  split; [|split; [|split]].
  - refine (proj2 (proj2 (@util_facts.trailing_bytes_tell_the_decoders_apart bool
              boolDestination plainURL offline payload payloadMarshaler
              (postFormTo saysTrueAndMore) false
              (requestTo "POST" EmptyString formHeader (Some "a=1"))
              saysTrueAndMore "true" " " "x"
              boolDestination_ignoresTrailingSpace _ _ _ _ _ _ _)) true _);
      [in_log | reflexivity .. | right; reflexivity | reflexivity].
  - refine (@util_facts.trailing_bytes_tell_the_decoders_apart bool
              boolDestination plainURL (network (inr saysTrueAndMore)) payload
              payloadMarshaler getStatus false
              (requestTo "GET" EmptyString ∅ None)
              saysTrueAndMore "true" " " "x"
              boolDestination_ignoresTrailingSpace _ _ _ _ _ _ _);
      [in_log | reflexivity .. | right; reflexivity].
  - refine (proj2 (proj2 (@util_facts.trailing_bytes_tell_the_decoders_apart bool
              boolDestination plainURL offline payload payloadMarshaler
              (postFormTo saysTrueThenOne) false
              (requestTo "POST" EmptyString formHeader (Some "a=1"))
              saysTrueThenOne "true" "1" EmptyString
              boolDestination_ignoresTrailingSpace _ _ _ _ _ _ _)) true _);
      [in_log | reflexivity .. | left; reflexivity | reflexivity].
  - refine (@util_facts.trailing_bytes_tell_the_decoders_apart bool
              boolDestination plainURL (network (inr saysTrueThenOne)) payload
              payloadMarshaler getStatus false
              (requestTo "GET" EmptyString ∅ None)
              saysTrueThenOne "true" "1" EmptyString
              boolDestination_ignoresTrailingSpace _ _ _ _ _ _ _);
      [in_log | reflexivity .. | left; reflexivity].
Defined.

(** A body that is a JSON value and more bytes, [1] and [.x]: the
    [Decoder] reads on into the number and finds a syntax error, so
    [PostForm] returns a [DecodeError] like [HTTPGet], whatever the
    destination, which is left as it was. *)
Lemma PostForm_rejects_value_and_more :
  http.StatusCode saysOneAndMore = http.StatusOK /\
  http.Body saysOneAndMore = {| http.data := "1" ++ ".x"; http.fault := None |} /\
  json.checkValid "1" = None /\
  existsb (fun b => negb (json.isSpace b)) ".x" = true /\
  json.readValue "1.x" None =
    json.SyntaxError "after decimal point in numeric literal" /\
  forall (D : Type) (UD : json.Unmarshaler D) (d : D),
    runAny D UD saysOneAndMore d =
    (inl (DecodeError "after decimal point in numeric literal"),
     State [ENewRequest "POST" "http://h/p";
            EDo (requestTo "POST" EmptyString formHeader (Some "a=1"))
                (inr saysOneAndMore);
            EDecode; EClose] d).
Proof. repeat split. Qed.

(** *** The course of a call, tried out *)

Lemma transport_failure_witness :
  fst (runOn offline postFormRefused false) =
    inl (TransportError "dial tcp: connection refused") /\
  result (snd (runOn offline postFormRefused false)) = false /\
  exists u,
    log (snd (runOn offline postFormRefused false)) =
      [ENewRequest "POST" u;
       EDo (requestTo "POST" EmptyString formHeader (Some "a=1"))
           (inl "dial tcp: connection refused")].
Proof.
  apply (@util_facts.transport_failure_is_returned bool boolDestination plainURL
           offline payload payloadMarshaler postFormRefused false).
  vm_compute. repeat first [apply list_elem_of_here | apply list_elem_of_further].
Defined.

Lemma nil_only_after_200_witness :
  exists u req resp,
    http.StatusCode resp = http.StatusOK /\
    log (snd (runOn offline (postFormTo saysTrue) false)) =
      [ENewRequest "POST" u; EDo req (inr resp); EDecode; EClose] /\
    @json.Decode bool boolDestination (http.data (http.Body resp))
      (http.fault (http.Body resp)) false =
      (result (snd (runOn offline (postFormTo saysTrue) false)), None).
Proof.
  apply (@util_facts.nil_only_after_200 bool boolDestination plainURL offline
           payload payloadMarshaler (postFormTo saysTrue) false).
  reflexivity.
Defined.

Lemma nil_context_witness :
  (forall req a,
     EDo req a ∉ log (snd (runOn offline
                             (CallHTTPGet http.NilContext "http://h/p") false))) /\
  result (snd (runOn offline (CallHTTPGet http.NilContext "http://h/p") false))
    = false /\
  (fst (runOn offline (CallHTTPGet http.NilContext "http://h/p") false) =
     inl (RequestConstructionError "net/http: nil Context") \/
   (exists e, fst (runOn offline (CallHTTPGet http.NilContext "http://h/p") false)
                = inl (InvalidEndpoint e)) \/
   (exists e, fst (runOn offline (CallHTTPGet http.NilContext "http://h/p") false)
                = inl (EncodeError e))).
Proof.
  apply (@util_facts.nil_context_never_sends bool boolDestination plainURL
           offline payload payloadMarshaler
           (CallHTTPGet http.NilContext "http://h/p") false).
  reflexivity.
Defined.

Lemma unparseable_url_witness :
  fst (runOn offline (CallHTTPGet background ":8080/p") false) =
    inl (RequestConstructionError "missing protocol scheme") /\
  log (snd (runOn offline (CallHTTPGet background ":8080/p") false)) =
    [ENewRequest "GET" ":8080/p"] /\
  result (snd (runOn offline (CallHTTPGet background ":8080/p") false)) = false.
Proof.
  apply (@util_facts.unparseable_url_is_a_construction_error bool
           boolDestination plainURL offline payload payloadMarshaler
           (CallHTTPGet background ":8080/p") false "missing protocol scheme"
           false).
  - discriminate.
  - reflexivity.
  - reflexivity.
  - intros e'. discriminate.
Defined.

Lemma HTTPGet_unreadable_body_witness :
  fst (runOn (network (inr trueThenBroken)) getStatus false) =
    inl (ReadBodyError "unexpected EOF") /\
  result (snd (runOn (network (inr trueThenBroken)) getStatus false)) = false /\
  exists u,
    log (snd (runOn (network (inr trueThenBroken)) getStatus false)) =
      [ENewRequest "GET" u;
       EDo (requestTo "GET" EmptyString ∅ None) (inr trueThenBroken);
       EReadAll; EClose].
Proof.
  apply (@util_facts.HTTPGet_unreadable_body bool boolDestination plainURL
           (network (inr trueThenBroken)) payload payloadMarshaler getStatus
           false (requestTo "GET" EmptyString ∅ None) trueThenBroken).
  - in_log.
  - reflexivity.
  - reflexivity.
Defined.

(** *** The request that is sent, tried out *)

Lemma sent_request_witness :
  http.Method (requestTo "POST" EmptyString formHeader (Some "a=1")) = "POST" /\
  http.ctx (requestTo "POST" EmptyString formHeader (Some "a=1")) = background.
Proof.
  apply (@util_facts.sent_request_method_and_context bool boolDestination
           plainURL offline payload payloadMarshaler (postFormTo saysTrue) false
           _ (inr saysTrue)).
  in_log.
Defined.

Lemma get_requests_witness :
  http.ReqBody (requestTo "GET" EmptyString ∅ None) = None /\
  (false = false -> http.Header (requestTo "GET" EmptyString ∅ None) = ∅).
Proof.
  apply (@util_facts.get_requests_are_bare bool boolDestination plainURL
           (network (inr overloaded)) payload payloadMarshaler getStatus false
           _ (inr overloaded)).
  - in_log.
  - reflexivity.
Defined.

Lemma PostJSONWithAuth_request_witness :
  exists jsonBody,
    @json.Marshal payload payloadMarshaler (Flag true) = inr jsonBody /\
    http.ReqBody (requestTo "POST" EmptyString (jsonHeaders EmptyString)
                    (Some "true")) = Some jsonBody /\
    http.Header (requestTo "POST" EmptyString (jsonHeaders EmptyString)
                   (Some "true")) =
      <["Authorization" := ["Bearer " ++ EmptyString]]>
        (<["Content-Type" := ["application/json"]]> ∅).
Proof.
  apply (@util_facts.PostJSONWithAuth_request bool boolDestination plainURL
           offline payload payloadMarshaler background (answering (inr saysTrue))
           "http://h/p" (Flag true) EmptyString false _ (inr saysTrue)).
  in_log.
Defined.

Lemma PostForm_request_witness :
  http.ReqBody (requestTo "POST" EmptyString formHeader (Some "a=1")) =
    url.Encode <$> Some aForm /\
  http.Header (requestTo "POST" EmptyString formHeader (Some "a=1")) =
    <["Content-Type" := ["application/x-www-form-urlencoded"]]> ∅.
Proof.
  apply (@util_facts.PostForm_request bool boolDestination plainURL offline
           payload payloadMarshaler background (answering (inr saysTrue))
           "http://h/p" (Some aForm) false _ (inr saysTrue)).
  in_log.
Defined.

(** *** Caller headers, tried out *)

Lemma header_order_witness :
  runOn offline (getWith [("accept", "a/b"); ("x-id", "7")] saysTrue) false =
    runOn offline (getWith [("x-id", "7"); ("accept", "a/b")] saysTrue) false /\
  runOn offline
    (CallPostFormWithHeaders background (answering (inr saysTrue)) "http://h/p"
       (Some aForm) [("accept", "a/b"); ("x-id", "7")]) false =
  runOn offline
    (CallPostFormWithHeaders background (answering (inr saysTrue)) "http://h/p"
       (Some aForm) [("x-id", "7"); ("accept", "a/b")]) false.
Proof.
  apply (@util_facts.header_order_is_irrelevant bool boolDestination plainURL
           offline payload payloadMarshaler).
  - apply perm_swap.
  - apply (bool_decide_unpack _). vm_compute. exact I.
Defined.

Lemma last_header_witness :
  http.Header (requestTo "GET" EmptyString {[ "X-Id" := ["8"] ]} None)
    !! http.CanonicalMIMEHeaderKey "X-ID" = Some ["8"].
Proof.
  apply (@util_facts.last_header_wins bool boolDestination plainURL offline
           payload payloadMarshaler
           (getWith [("x-id", "7"); ("X-ID", "8")] saysTrue) false
           [("x-id", "7")] "X-ID" "8" _ (inr saysTrue)).
  - reflexivity.
  - in_log.
Defined.

Lemma caller_headers_witness :
  (forall name,
     (forall kv, kv ∈ [("x-id", "7")] -> canonicalName kv <> name) ->
     http.Header (requestTo "GET" EmptyString {[ "X-Id" := ["7"] ]} None)
       !! name = None) /\
  (forall k v,
     (k, v) ∈ [("x-id", "7")] ->
     (forall kv, kv ∈ [("x-id", "7")] ->
        canonicalName kv = canonicalName (k, v) -> kv = (k, v)) ->
     http.Header (requestTo "GET" EmptyString {[ "X-Id" := ["7"] ]} None)
       !! http.CanonicalMIMEHeaderKey k = Some [v]).
Proof.
  apply (@util_facts.caller_headers_and_no_others bool boolDestination plainURL
           offline payload payloadMarshaler
           (getWith [("x-id", "7")] saysTrue) false
           [("x-id", "7")] _ (inr saysTrue)).
  - reflexivity.
  - in_log.
Defined.

(** *** Decoding, the failing side, tried out *)

Lemma malformed_body_witness :
  isDecodeError (fst (runOn offline (postFormTo saysTru) false)) /\
  result (snd (runOn offline (postFormTo saysTru) false)) = false.
Proof.
  apply (@util_facts.malformed_body_leaves_destination bool boolDestination
           plainURL offline payload payloadMarshaler (postFormTo saysTru) false
           (requestTo "POST" EmptyString formHeader (Some "a=1")) saysTru).
  - in_log.
  - reflexivity.
  - cbn. intros text rest. vm_compute. discriminate.
Defined.


(** *** The request builder, tried out *)

Lemma newRequest_result_witness :
  http.Method (requestTo "POST" "q=1" formAndToken (Some "a=1")) = "POST" /\
  http.ReqBody (requestTo "POST" "q=1" formAndToken (Some "a=1")) =
    url.Encode <$> Some aForm /\
  http.Header (requestTo "POST" "q=1" formAndToken (Some "a=1")) =
    <["Authorization" := ["Bearer tok123"]]>
      (<["Content-Type" := ["application/x-www-form-urlencoded"]]> ∅).
Proof.
  destruct (@util_facts.newRequest_result bool plainURL background "POST"
              "http://h/p?x=1" (Some {[ "q" := ["1"] ]}) (Some aForm) "tok123"
              start (State [ENewRequest "POST" "http://h/p?q=1"] false)
              (requestTo "POST" "q=1" formAndToken (Some "a=1")))
    as (_ & _ & Hm & _ & Hb & Hh & _).
  - vm_compute. reflexivity.
  - split; [exact Hm|]. split; [exact Hb | exact Hh].
Defined.

(** *** The entry points against each other, tried out *)

Lemma PostFormWithHeaders_like_PostForm_witness :
  http.Method (requestTo "POST" EmptyString formHeader (Some "a=1")) =
    http.Method (requestTo "POST" EmptyString formHeader (Some "a=1")) /\
  http.ReqBody (requestTo "POST" EmptyString formHeader (Some "a=1")) =
    http.ReqBody (requestTo "POST" EmptyString formHeader (Some "a=1")) /\
  http.Header (requestTo "POST" EmptyString formHeader (Some "a=1")) =
    http.Header (requestTo "POST" EmptyString formHeader (Some "a=1")).
Proof.
  apply (@util_facts.PostFormWithHeaders_like_PostForm bool boolDestination
           plainURL offline payload payloadMarshaler background
           (answering (inr saysTrue)) (answering (inr overloaded))
           "http://h/p" "http://h/p" aForm false false
           (requestTo "POST" EmptyString formHeader (Some "a=1"))
           (requestTo "POST" EmptyString formHeader (Some "a=1"))
           (inr saysTrue) (inr overloaded)).
  - in_log.
  - in_log.
Defined.

Lemma HTTPGet_like_GetWithCustomHeaders_witness :
  fst (@run bool boolDestination plainURL payload payloadMarshaler
         (network (inr saysTrue))
         (CallGetWithCustomHeaders background
            (@http.zeroClient (network (inr saysTrue))) "http://h/p" []) false) =
    fst (runOn (network (inr saysTrue)) getStatus false) /\
  result (snd (@run bool boolDestination plainURL payload payloadMarshaler
                 (network (inr saysTrue))
                 (CallGetWithCustomHeaders background
                    (@http.zeroClient (network (inr saysTrue))) "http://h/p" [])
                 false)) =
    result (snd (runOn (network (inr saysTrue)) getStatus false)).
Proof.
  apply (@util_facts.HTTPGet_like_GetWithCustomHeaders bool boolDestination
           plainURL (network (inr saysTrue)) payload payloadMarshaler
           background "http://h/p" false).
  - exact boolDestination_ignoresTrailingSpace.
  - intros req resp Hin. unfold answered in Hin. vm_compute in Hin.
    repeat (apply elem_of_cons in Hin as [Hin | Hin]; [try discriminate Hin|]).
    + injection Hin as _ ->. split; [reflexivity | right; reflexivity].
    + now apply elem_of_nil in Hin.
Defined.

End examples.
